(** * medbot: the diagnosis engine and the medicine text matcher

    A shallow embedding of [backend/diagnose.py] (class [DiagnosisSystem])
    and of the two request handlers of [backend/app.py] that call into it,
    followed by the properties of the embedding.

    Conventions of the embedding.
    - A Python [str] is a [string]; a character is a code point below 256.
    - A Python [float] is a rational number [Q].  The program only stores
      floats, copies them and compares them; it does no arithmetic on them.
      Two floats are "exactly equal" when they are [Qeq].
    - A pandas data frame is the list of its rows, in row order; a row is a
      record of the documented columns, all of them strings.
    - A Python exception is a value of [exn]; code that may raise returns a
      [result].  [try_except] is [try: ... except ...:].
    - The classifier, the file system, [joblib], [open] and [pandas.read_csv]
      are collaborators: the classifier is a field of the system, and a file
      is given by what loading it produces ([source]).
    - [np.argsort] is a collaborator too ([Numpy]): the program relies on
      its default sort, which orders equal values as it pleases.  So are
      [cv2.imdecode] and the OCR engine ([Vision]). *)

From Stdlib Require Import QArith Ascii.
From stdpp Require Import base list strings gmap sorting pretty.

Local Open Scope string_scope.

(** ** Exceptions and results *)

Inductive exn : Type :=
  | FileNotFoundError (msg : string)
  | PermissionError
  | UnpicklingError
  | UnicodeDecodeError
  | ParserError
  | ValueError (msg : string)
  | IndexError
  | AttributeError (msg : string)
  | ClassifierError (msg : string)
  | cv2_error (msg : string)
  | HTTPException (status_code : nat) (detail : string).

Inductive result (A : Type) : Type :=
  | Ok (a : A)
  | Raise (e : exn).
Arguments Ok {A} a.
Arguments Raise {A} e.

#[global] Instance result_ret : MRet result := λ A a, Ok a.
#[global] Instance result_bind : MBind result := λ A B f m,
  match m with
  | Ok a => f a
  | Raise e => Raise e
  end.
#[global] Instance result_fmap : FMap result := λ A B f m,
  match m with
  | Ok a => Ok (f a)
  | Raise e => Raise e
  end.

(** [try: body except Exception as e: handler e] *)
Definition try_except {A} (body : result A) (handler : exn → result A) : result A :=
  match body with
  | Ok a => Ok a
  | Raise e => handler e
  end.

(** [str(e)]: Starlette prints an [HTTPException] as "status: detail";
    the built-in exceptions print their message. *)
Definition exn_str (e : exn) : string :=
  match e with
  | FileNotFoundError msg => msg
  | PermissionError => "Permission denied"
  | UnpicklingError => "invalid load key"
  | UnicodeDecodeError => "codec can't decode byte"
  | ParserError => "Error tokenizing data"
  | ValueError msg => msg
  | IndexError => "single positional indexer is out-of-bounds"
  | AttributeError msg => msg
  | ClassifierError msg => msg
  | cv2_error msg => msg
  | HTTPException status_code detail => pretty status_code +:+ ": " +:+ detail
  end.

(** [l[i]] for a natural index: out of range raises [IndexError]. *)
Definition getitem {A} (l : list A) (i : nat) : result A :=
  match l !! i with
  | Some x => Ok x
  | None => Raise IndexError
  end.

(** [a[i] = v] on a numpy array: out of range raises [IndexError]. *)
Definition setitem {A} (a : list A) (i : nat) (v : A) : result (list A) :=
  if decide (i < length a)%nat then Ok (<[i:=v]> a) else Raise IndexError.

(** ** Strings *)

Definition code (c : ascii) : N := N_of_ascii c.

(** [c.isspace()] *)
Definition isspace (c : ascii) : bool :=
  let n := code c in
  ((9 <=? n) && (n <=? 13) || (28 <=? n) && (n <=? 32) || (n =? 133) || (n =? 160))%N.

(** [c.lower()] for one character below 256: the Latin capitals move up by
    32, nothing else changes. *)
Definition lower_char (c : ascii) : ascii :=
  let n := code c in
  if ((65 <=? n) && (n <=? 90) || (192 <=? n) && (n <=? 222) && negb (n =? 215))%N
  then ascii_of_N (n + 32) else c.

(** [s.lower()] on a string of code points below 256, where Python lowers
    character by character.  (Beyond that range [str.lower] looks at
    neighbouring characters; such strings are outside this embedding.) *)
Fixpoint lower (s : string) : string :=
  match s with
  | EmptyString => EmptyString
  | String c s' => String (lower_char c) (lower s')
  end.

Fixpoint lstrip (s : string) : string :=
  match s with
  | EmptyString => EmptyString
  | String c s' => if isspace c then lstrip s' else s
  end.

Fixpoint rstrip (s : string) : string :=
  match s with
  | EmptyString => EmptyString
  | String c s' =>
      match rstrip s' with
      | EmptyString => if isspace c then EmptyString else String c EmptyString
      | r => String c r
      end
  end.

(** [s.strip()] *)
Definition strip (s : string) : string := rstrip (lstrip s).

(** [s.startswith(p)] *)
Fixpoint startswith (p s : string) : bool :=
  match p, s with
  | EmptyString, _ => true
  | String _ _, EmptyString => false
  | String a p', String b s' => if decide (a = b) then startswith p' s' else false
  end.

(** [needle in hay] on strings: [needle] starts at some position of [hay]. *)
Fixpoint str_in (needle hay : string) : bool :=
  startswith needle hay ||
  match hay with
  | EmptyString => false
  | String _ hay' => str_in needle hay'
  end.

(** ** Reference tables *)

(** A row of [data/diseases.csv]. *)
Record DiseaseRow : Type := mkDisease {
  dis_name : string;
  dis_description : string;
  dis_severity : string;
  dis_contagious : string;
  dis_precautions : string
}.

(** A row of [data/medicines.csv]. *)
Record MedicineRow : Type := mkMedicine {
  med_name : string;
  med_diagnosis : string;
  med_usage : string;
  med_dosage : string;
  med_side_effects : string
}.

#[global] Instance DiseaseRow_eq_dec : EqDecision DiseaseRow.
Proof. solve_decision. Defined.
#[global] Instance MedicineRow_eq_dec : EqDecision MedicineRow.
Proof. solve_decision. Defined.

(** The fitted classifier: [model.classes_] and [model.predict_proba([x])[0]]. *)
Record Classifier : Type := mkClassifier {
  classes_ : list string;
  predict_proba : list Q → result (list Q)
}.

(** The attributes of a [DiagnosisSystem] object. *)
Record DiagnosisSystem : Type := mkSystem {
  model : Classifier;
  symptom_columns : list string;
  diseases_df : list DiseaseRow;
  medicines_df : list MedicineRow
}.

(** ** [DiagnosisSystem.__init__] *)

(** What loading a file produces.  [Malformed] is a file that its loader
    rejects: a pickle that does not unpickle, bytes that do not decode, a
    CSV that does not tokenize (an empty file included).  [Contents rows]
    with [rows = []] is a CSV with a header line and no data. *)
Inductive source (A : Type) : Type :=
  | Missing
  | Unreadable
  | Malformed
  | Contents (a : A).
Arguments Missing {A}.
Arguments Unreadable {A}.
Arguments Malformed {A}.
Arguments Contents {A} a.

(** The four files below [base_dir]; the vocabulary file is given by its lines. *)
Record Files : Type := mkFiles {
  model_path : source Classifier;
  columns_path : source (list string);
  diseases_path : source (list DiseaseRow);
  medicines_path : source (list MedicineRow)
}.

(** [os.path.exists] *)
Definition path_exists {A} (f : source A) : bool :=
  match f with
  | Missing => false
  | _ => true
  end.

(** [joblib.load] *)
Definition joblib_load (f : source Classifier) : result Classifier :=
  match f with
  | Missing => Raise (FileNotFoundError "No such file or directory")
  | Unreadable => Raise PermissionError
  | Malformed => Raise UnpicklingError
  | Contents m => Ok m
  end.

(** [with open(path, 'r') as f: [line for line in f]] *)
Definition open_lines (f : source (list string)) : result (list string) :=
  match f with
  | Missing => Raise (FileNotFoundError "No such file or directory")
  | Unreadable => Raise PermissionError
  | Malformed => Raise UnicodeDecodeError
  | Contents ls => Ok ls
  end.

(** [pd.read_csv] *)
Definition read_csv {A} (f : source (list A)) : result (list A) :=
  match f with
  | Missing => Raise (FileNotFoundError "No such file or directory")
  | Unreadable => Raise PermissionError
  | Malformed => Raise ParserError
  | Contents rows => Ok rows
  end.

(** [df.empty] *)
Definition df_empty {A} (df : list A) : bool :=
  match df with
  | [] => true
  | _ => false
  end.

Definition init (fs : Files) : result DiagnosisSystem :=
  try_except
    (if negb (path_exists (model_path fs)) || negb (path_exists (columns_path fs))
     then Raise (FileNotFoundError "Model files not found")
     else
       m ← joblib_load (model_path fs);
       lines ← open_lines (columns_path fs);
       let cols := strip <$> lines in
       tables ← try_except
                  (d ← read_csv (diseases_path fs);
                   md ← read_csv (medicines_path fs);
                   Ok (d, md))
                  (λ e, Raise e);
       if df_empty tables.1 || df_empty tables.2
       then Raise (ValueError "CSV files are empty")
       else Ok (mkSystem m cols tables.1 tables.2))
    (λ e, Raise e).

(** ** [DiagnosisSystem.diagnose] *)

(** [cols.index(x)]: the first position of [x]; absent raises [ValueError]. *)
Fixpoint index (cols : list string) (x : string) : result nat :=
  match cols with
  | [] => Raise (ValueError "not in list")
  | c :: cols' => if decide (x = c) then Ok 0%nat else S <$> index cols' x
  end.

(** The body of [for symptom in symptoms:]. *)
Definition mark_symptom (cols : list string) (features : list Q) (symptom : string)
  : result (list Q) :=
  if decide (symptom ∈ cols)
  then idx ← index cols symptom; setitem features idx 1%Q
  else Ok features.

(** The loop over [symptoms], threading the array. *)
Fixpoint mark_symptoms (cols : list string) (features : list Q) (symptoms : list string)
  : result (list Q) :=
  match symptoms with
  | [] => Ok features
  | symptom :: rest =>
      features' ← mark_symptom cols features symptom;
      mark_symptoms cols features' rest
  end.

(** Lines 62-67: the feature vector, from [np.zeros(len(cols))]. *)
Definition encode (cols symptoms : list string) : result (list Q) :=
  mark_symptoms cols (replicate (length cols) 0%Q) symptoms.

(** One step of an insertion sort on (index, value) pairs, ascending by value:
    the new pair goes before the first pair whose value is not smaller. *)
Fixpoint insert_by_value {A} (x : A * Q) (l : list (A * Q)) : list (A * Q) :=
  match l with
  | [] => [x]
  | y :: l' => if Qle_bool x.2 y.2 then x :: y :: l' else y :: insert_by_value x l'
  end.

Definition sort_by_value {A} (l : list (A * Q)) : list (A * Q) :=
  foldr insert_by_value [] l.

(** [np.argsort], called with its default [kind], is a collaborator: numpy
    returns the positions of the array arranged so that the values ascend,
    and promises nothing about the order of equal values (its default sort
    is not stable, and differs between builds).  The embedding takes the
    function as given. *)
Class Numpy : Type := { argsort : list Q → list nat }.

(** Along the positions [i], [j] the values of [a] ascend. *)
Definition ascending_along (a : list Q) : relation nat :=
  λ i j, ∃ p q, a !! i = Some p ∧ a !! j = Some q ∧ (p <= q)%Q.

(** What numpy documents of [argsort]: every position once, values
    ascending. *)
Definition argsort_sorts (np : Numpy) : Prop :=
  ∀ a : list Q,
    argsort a ≡ₚ seq 0 (length a) ∧
    StronglySorted (ascending_along a) (argsort a).

(** One admissible [argsort]: an insertion sort over the positions from
    first to last.  It keeps equal values in index order. *)
Definition insertion_argsort (a : list Q) : list nat :=
  (sort_by_value (zip (seq 0 (length a)) a)).*1.

Definition insertion_numpy : Numpy := {| argsort := insertion_argsort |}.

(** Another admissible [argsort]: the same sort over the positions from last
    to first.  It returns equal values in descending index order, so
    [0.5, 0.5, 0, 0] gives [3, 2, 1, 0]. *)
Definition mirrored_argsort (a : list Q) : list nat :=
  (sort_by_value (reverse (zip (seq 0 (length a)) a))).*1.

Definition mirrored_numpy : Numpy := {| argsort := mirrored_argsort |}.

(** [l[-n:]] *)
Definition last_n {A} (n : nat) (l : list A) : list A := drop (length l - n) l.

(** Line 74: [np.argsort(probs)[-3:][::-1]] *)
Definition top_indices {np : Numpy} (probs : list Q) : list nat :=
  reverse (last_n 3 (argsort probs)).

(** Lines 75-81: one [{"disease": ..., "confidence": ...}] per index, as a pair. *)
Definition possible_diagnoses_of {np : Numpy} (classes : list string) (probs : list Q)
  : result (list (string * Q)) :=
  mapM (λ idx, d ← getitem classes idx; c ← getitem probs idx; Ok (d, c))
       (top_indices probs).

(** Lines 91-97: the record built when the disease table has no row. *)
Definition placeholder (primary_diagnosis : string) : DiseaseRow :=
  {| dis_name := primary_diagnosis;
     dis_description := "Information not available";
     dis_severity := "Unknown";
     dis_contagious := "Unknown";
     dis_precautions := "Consult a healthcare professional" |}.

(** Lines 87-97: [df[df['name'] == primary].iloc[0]], with its [except IndexError]. *)
Definition lookup_disease (df : list DiseaseRow) (primary_diagnosis : string) : result DiseaseRow :=
  try_except
    (getitem (filter (λ r, dis_name r = primary_diagnosis) df) 0)
    (λ e, match e with
          | IndexError => Ok (placeholder primary_diagnosis)
          | _ => Raise e
          end).

(** Lines 100-106: [df[df['diagnosis'] == primary].to_dict('records')]. *)
Definition lookup_medicines (df : list MedicineRow) (primary_diagnosis : string)
  : result (list MedicineRow) :=
  try_except
    (Ok (filter (λ r, med_diagnosis r = primary_diagnosis) df))
    (λ _, Ok []).

(** The dictionary that [diagnose] returns. *)
Record DiagnosisResult : Type := mkResult {
  diagnosis : string;
  confidence : Q;
  possible_diagnoses : list (string * Q);
  disease_info : DiseaseRow;
  medicines : list MedicineRow
}.

Definition diagnose {np : Numpy} (self : DiagnosisSystem) (symptoms : list string)
  : result DiagnosisResult :=
  try_except
    (features ← encode (symptom_columns self) symptoms;
     probs ← predict_proba (model self) features;
     let classes := classes_ (model self) in
     possible ← possible_diagnoses_of classes probs;
     primary ← getitem possible 0;
     info ← lookup_disease (diseases_df self) primary.1;
     recommended ← lookup_medicines (medicines_df self) primary.1;
     Ok {| diagnosis := primary.1;
           confidence := primary.2;
           possible_diagnoses := possible;
           disease_info := info;
           medicines := recommended |})
    (λ e, Raise e).

(** ** The request handlers of [app.py] *)

Module app.

(** [POST /diagnose]; the argument is [request.symptoms]. *)
Definition diagnose {np : Numpy} (diagnosis_system : DiagnosisSystem)
    (symptoms : list string) : result DiagnosisResult :=
  try_except
    (if decide (symptoms = [])
     then Raise (HTTPException 400 "No symptoms provided")
     else diagnose diagnosis_system symptoms)
    (λ e, Raise (HTTPException 500 (exn_str e))).

(** What [analyze_medicine] returns. *)
Inductive MatchResult : Type :=
  | not_found (message extracted_text : string)
  | success (medicines : list MedicineRow) (extracted_text : string).

(** Lines 97-100: the loop over the rows, appending each hit to [matches]. *)
Definition collect_matches (df : list MedicineRow) (text : string) : list MedicineRow :=
  foldl (λ (matches : list MedicineRow) row,
           if str_in (lower (med_name row)) text then (matches ++ [row])%list else matches)
        [] df.

(** [POST /analyze_medicine], lines 91-115: from the text that OCR extracted
    to the response.  Decoding the upload and running OCR (lines 64-88) are
    the caller's part; [text] is what [image_to_string] returned. *)
Definition analyze_medicine (diagnosis_system : DiagnosisSystem) (text : string)
  : result MatchResult :=
  try_except
    (try_except
       (let text := lower (strip text) in
        let matches := collect_matches (medicines_df diagnosis_system) text in
        if decide (matches = [])
        then Ok (not_found "No medicine information found in the image" text)
        else Ok (success matches text))
       (λ e, Raise (HTTPException 500 ("Error processing image: " +:+ exn_str e))))
    (λ e, Raise (HTTPException 500 (exn_str e))).

End app.

(** * Definitions used in the statements *)

(** ** Strings and the matcher *)

(** [s] occurs in [t] as a contiguous block. *)
Definition substring_of (s t : string) : Prop :=
  ∃ before after, t = before +:+ s +:+ after.

(** The test of line 99 on one row. *)
Definition hit (text : string) (row : MedicineRow) : Prop :=
  str_in (lower (med_name row)) text = true.

#[global] Instance hit_dec text row : Decision (hit text row).
Proof. unfold hit. apply _. Defined.

(** The rows that a response carries. *)
Definition matched (r : app.MatchResult) : list MedicineRow :=
  match r with
  | app.not_found _ _ => []
  | app.success ms _ => ms
  end.

(** ** Start-up *)

(** The file is missing, unreadable or malformed. *)
Definition unavailable {A} (f : source A) : Prop := ∀ a, f ≠ Contents a.

(** The file loads as a table without rows. *)
Definition loads_empty {A} (f : source (list A)) : Prop := f = Contents [].

Definition init_fails (fs : Files) : Prop := ∃ e, init fs = Raise e.

(** The specification's start-up rule: any of the four sources unavailable,
    or any of the three tables empty. *)
Definition spec_must_fail (fs : Files) : Prop :=
  unavailable (model_path fs) ∨ unavailable (columns_path fs) ∨
  unavailable (diseases_path fs) ∨ unavailable (medicines_path fs) ∨
  loads_empty (columns_path fs) ∨ loads_empty (diseases_path fs) ∨
  loads_empty (medicines_path fs).

(** The rule that [__init__] implements: the emptiness check covers the two
    CSV tables only. *)
Definition code_must_fail (fs : Files) : Prop :=
  unavailable (model_path fs) ∨ unavailable (columns_path fs) ∨
  unavailable (diseases_path fs) ∨ unavailable (medicines_path fs) ∨
  loads_empty (diseases_path fs) ∨ loads_empty (medicines_path fs).

(** ** The feature vector *)

(** The vector that [encode] is shown to compute, by recursion on the
    vocabulary: a column is set when its symptom was reported, and a
    repeated column name is set at its first position only. *)
Fixpoint indicator (cols symptoms : list string) : list Q :=
  match cols with
  | [] => []
  | c :: cols' =>
      (if decide (c ∈ symptoms) then 1%Q else 0%Q)
        :: indicator cols' (filter (λ s, s ≠ c) symptoms)
  end.

(** The number of entries equal to 1. *)
Definition count_ones (v : list Q) : nat :=
  length (filter (λ x, Qeq_bool x 1 = true) v).

(** ** The ranking *)

(** Ascending by value; equal values are ordered by [R0] on the tags. *)
Definition value_then {A} (R0 : relation A) : relation (A * Q) :=
  λ x y, (x.2 < y.2)%Q ∨ ((x.2 == y.2)%Q ∧ R0 x.1 y.1).

(** The class and the probability at position [i]. *)
Definition pair_at (classes : list string) (probs : list Q) (i : nat) : string * Q :=
  (default EmptyString (classes !! i), default 0%Q (probs !! i)).

(** The classifier's (class, probability) pairs in the order of [argsort]. *)
Definition sorted_pairs {np : Numpy} (classes : list string) (probs : list Q)
  : list (string * Q) :=
  pair_at classes probs <$> argsort probs.

(** The ranking in terms of (class, probability) pairs: of the pairs in
    ascending order keep the last three, turned round. *)
Definition ranking {np : Numpy} (classes : list string) (probs : list Q)
  : list (string * Q) :=
  reverse (last_n 3 (sorted_pairs classes probs)).

(** Position [i] ranks above position [j]: a higher probability, or equal
    probabilities and [tie i j]. *)
Definition ranks_above (tie : relation nat) (probs : list Q) (i j : nat) : Prop :=
  ∃ p q, probs !! i = Some p ∧ probs !! j = Some q ∧
         ((q < p)%Q ∨ ((q == p)%Q ∧ tie i j)).

(** [out] lists the three best positions (all of them when there are fewer),
    each once, best first, each with its class and its probability; [tie]
    settles equal probabilities. *)
Definition top3_by (tie : relation nat) (classes : list string) (probs : list Q)
    (out : list (string * Q)) : Prop :=
  ∃ idxs : list nat,
    Forall2 (λ i o, classes !! i = Some o.1 ∧ probs !! i = Some o.2) idxs out ∧
    length idxs = (3 `min` length probs)%nat ∧
    NoDup idxs ∧
    StronglySorted (ranks_above tie probs) idxs ∧
    (∀ i k, i ∈ idxs → k ∉ idxs → (k < length probs)%nat → ranks_above tie probs i k).

(** The specification's tie rule: the earlier class first. *)
Definition earlier_first : relation nat := λ i j, (i < j)%nat.

(** No rule for ties: equal probabilities may stand in either order. *)
Definition any_order : relation nat := λ _ _, True.

(** The classes that are strictly more probable than [a]. *)
Definition above (cp : list (string * Q)) (a : string * Q) : list (string * Q) :=
  filter (λ c, Qle_bool c.2 a.2 = false) cp.

(** Ties cannot reach the three best: whenever two different entries have
    exactly the same probability, at least three classes are strictly more
    probable. *)
Definition ties_below_top3 (cp : list (string * Q)) : Prop :=
  ∀ a b, a ∈ cp → b ∈ cp → (a.2 == b.2)%Q → a = b ∨ (3 ≤ length (above cp a))%nat.

(** ** Disease information *)

(** The disease row that [lookup_disease] settles on. *)
Definition disease_or_placeholder (df : list DiseaseRow) (primary : string) : DiseaseRow :=
  match filter (λ r, dis_name r = primary) df with
  | row :: _ => row
  | [] => placeholder primary
  end.

(** The placeholder as the specification spells it. *)
Definition spec_placeholder (primary_diagnosis : string) : DiseaseRow :=
  mkDisease primary_diagnosis "information not available" "unknown" "unknown"
            "consult a healthcare professional".

(** ** Worked inputs *)

(** The scenario of the specification: three classes, "flu" the most
    probable.  A fitted classifier lists its classes in sorted order. *)
Definition flu_model : Classifier :=
  {| classes_ := ["cold"; "flu"; "migraine"];
     predict_proba := λ _, Ok [0.2; 0.7; 0.1]%Q |}.

Definition flu_row : DiseaseRow :=
  mkDisease "flu" "Viral infection" "Moderate" "Yes" "Rest and fluids".

Definition cold_row : DiseaseRow :=
  mkDisease "cold" "Common cold" "Mild" "Yes" "Rest".

Definition oseltamivir : MedicineRow :=
  mkMedicine "Oseltamivir" "flu" "Antiviral" "75mg twice daily" "Nausea".

Definition paracetamol : MedicineRow :=
  mkMedicine "Paracetamol" "cold" "Pain relief" "500mg" "Rare".

Definition tamiflu : MedicineRow :=
  mkMedicine "Tamiflu" "Flu" "Antiviral" "75mg" "Nausea".

Definition flu_system : DiagnosisSystem :=
  {| model := flu_model;
     symptom_columns := ["fever"; "cough"; "headache"; "sore_throat"];
     diseases_df := [flu_row];
     medicines_df := [paracetamol; oseltamivir] |}.

(** A system whose disease table has no row for the class "flu". *)
Definition unlisted_system : DiagnosisSystem :=
  {| model := flu_model;
     symptom_columns := ["fever"; "cough"; "headache"; "sore_throat"];
     diseases_df := [cold_row];
     medicines_df := [paracetamol; oseltamivir] |}.

(** Two classes whose names differ in case only; fever tips the answer. *)
Definition Flu_model : Classifier :=
  {| classes_ := ["Flu"; "flu"];
     predict_proba := λ x, match x with
                           | fever :: _ =>
                               if Qeq_bool fever 1 then Ok [0.9; 0.1]%Q
                               else Ok [0.1; 0.9]%Q
                           | [] => Ok [0.1; 0.9]%Q
                           end |}.

Definition Flu_system : DiagnosisSystem :=
  {| model := Flu_model;
     symptom_columns := ["fever"; "cough"; "headache"; "sore_throat"];
     diseases_df := [flu_row];
     medicines_df := [tamiflu] |}.

Definition two_class_model : Classifier :=
  {| classes_ := ["cold"; "flu"];
     predict_proba := λ _, Ok [0.25; 0.75]%Q |}.

Definition two_class_system : DiagnosisSystem :=
  {| model := two_class_model;
     symptom_columns := ["fever"; "cough"; "headache"; "sore_throat"];
     diseases_df := [flu_row];
     medicines_df := [paracetamol; oseltamivir] |}.

(** A classifier that gives its two classes the same probability. *)
Definition tie_model : Classifier :=
  {| classes_ := ["cold"; "flu"];
     predict_proba := λ _, Ok [0.5; 0.5]%Q |}.

Definition tie_system : DiagnosisSystem :=
  {| model := tie_model;
     symptom_columns := ["fever"; "cough"; "headache"; "sore_throat"];
     diseases_df := [flu_row];
     medicines_df := [paracetamol; oseltamivir] |}.

Definition tied_output : list (string * Q) :=
  [("cold", 0.5); ("flu", 0.5)]%Q.

Definition tied_output_swapped : list (string * Q) :=
  [("flu", 0.5); ("cold", 0.5)]%Q.

(** Five classes; the two that tie have three classes above them. *)
Definition tail_tied_output : list (string * Q) :=
  [("asthma", 0); ("cold", 0.2); ("flu", 0.7); ("gout", 0); ("migraine", 0.1)]%Q.

Definition tail_tied_output_shuffled : list (string * Q) :=
  [("gout", 0); ("migraine", 0.1); ("asthma", 0); ("flu", 0.7); ("cold", 0.2)]%Q.

(** Start-up files with an empty vocabulary file. *)
Definition empty_vocabulary_files : Files :=
  {| model_path := Contents flu_model;
     columns_path := Contents [];
     diseases_path := Contents [flu_row];
     medicines_path := Contents [paracetamol] |}.

(** * The rest of the three files *)

(** ** [app.py]: the remaining handlers *)

(** What FastAPI hands to [analyze_medicine]; [content_type] is [None] when
    the upload states no content type. *)
Record UploadFile : Type := mkUpload {
  filename : string;
  content_type : option string;
  contents : string
}.

(** The image library and the OCR engine, for some type of decoded images:
    [cv2.imdecode], which returns [None] for bytes that are no image and
    raises on an empty buffer, and lines 83-87, grey-scaling, thresholding
    and [pytesseract.image_to_string], which may raise. *)
Record Vision (image : Type) : Type := mkVision {
  imdecode : string → result (option image);
  image_to_string : image → result string
}.
Arguments imdecode {image} _ _.
Arguments image_to_string {image} _ _.

Module handlers.

(** [GET /symptoms] *)
Definition get_symptoms (diagnosis_system : DiagnosisSystem) : result (list string) :=
  try_except
    (Ok (symptom_columns diagnosis_system))
    (λ e, Raise (HTTPException 500 (exn_str e))).

(** [POST /analyze_medicine], the whole handler (lines 62-123). *)
Definition analyze_medicine {image} (cv : Vision image)
    (diagnosis_system : DiagnosisSystem) (file : UploadFile) : result app.MatchResult :=
  try_except
    (ct ← match content_type file with
          | Some ct => Ok ct
          | None => Raise (AttributeError
                             "'NoneType' object has no attribute 'startswith'")
          end;
     if negb (startswith "image/" ct)
     then Raise (HTTPException 400 "Please upload an image file")
     else
       img ← imdecode cv (contents file);
       match img with
       | None => Raise (HTTPException 400 "Could not read image file")
       | Some img =>
           try_except
             (text ← image_to_string cv img;
              let text := lower (strip text) in
              let matches := app.collect_matches (medicines_df diagnosis_system) text in
              if decide (matches = [])
              then Ok (app.not_found "No medicine information found in the image" text)
              else Ok (app.success matches text))
             (λ e, Raise (HTTPException 500 ("Error processing image: " +:+ exn_str e)))
       end)
    (λ e, Raise (HTTPException 500 (exn_str e))).

End handlers.

(** ** [diagnose.py]: the report *)

(** The line feed and the carriage return. *)
Definition LF : ascii := "010"%char.
Definition CR : ascii := "013"%char.

(** A string that starts with a line feed, as in [print("\n=== ... ===")]. *)
Definition nl (s : string) : string := String LF s.

(** [print_diagnosis_result]: the strings handed to [print], one per call.
    [pct x] is [f"{x:.2%}"]. *)
Definition print_diagnosis_result (pct : Q → string) (result : DiagnosisResult)
  : list string :=
  ([ nl "=== Diagnosis Results ===";
     "Primary Diagnosis: " +:+ diagnosis result;
     "Confidence: " +:+ pct (confidence result);
     nl "=== Disease Information ===";
     "Description: " +:+ dis_description (disease_info result);
     "Severity: " +:+ dis_severity (disease_info result);
     "Contagious: " +:+ dis_contagious (disease_info result);
     "Precautions: " +:+ dis_precautions (disease_info result) ]
   ++ (if decide (1 < length (possible_diagnoses result))%nat
       then nl "=== Other Possible Diagnoses ===" ::
            ((λ diag : string * Q, "- " +:+ diag.1 +:+ " (" +:+ pct diag.2 +:+ ")")
               <$> drop 1 (possible_diagnoses result))
       else [])
   ++ (if decide (medicines result = [])
       then []
       else nl "=== Recommended Medicines ===" ::
            (med ← medicines result;
             [ nl ("Medicine: " +:+ med_name med);
               "Usage: " +:+ med_usage med;
               "Dosage: " +:+ med_dosage med;
               "Side Effects: " +:+ med_side_effects med ])))%list.

(** ** [train_model.py]: the vocabulary file *)

(** Line 21, [symptoms_df.drop('diagnosis', axis=1).columns]: the header
    without the label column; [None] is the [KeyError] of a header that has
    no such column. *)
Definition feature_columns (header : list string) : option (list string) :=
  if decide ("diagnosis" ∈ header)
  then Some (filter (λ col, col ≠ "diagnosis") header)
  else None.

(** Lines 49-51: what the loop writes to [symptom_columns.txt]. *)
Definition symptom_columns_txt (columns : list string) : string :=
  foldr (λ col rest, col +:+ String LF rest) EmptyString columns.

(** Text files: a file opened with ['w'] writes [os.linesep] for every line
    feed, a file opened with ['r'] reads a carriage return, alone or before
    a line feed, as a line feed. *)
Inductive platform : Type := posix | win32.

Fixpoint write_text (p : platform) (s : string) : string :=
  match s with
  | EmptyString => EmptyString
  | String c s' =>
      if decide (c = LF)
      then match p with
           | posix => String LF (write_text p s')
           | win32 => String CR (String LF (write_text p s'))
           end
      else String c (write_text p s')
  end.

Fixpoint read_text (s : string) : string :=
  match s with
  | EmptyString => EmptyString
  | String c s' =>
      if decide (c = CR)
      then match s' with
           | String c' s'' =>
               if decide (c' = LF) then String LF (read_text s'')
               else String LF (read_text s')
           | EmptyString => String LF EmptyString
           end
      else String c (read_text s')
  end.

(** [for line in f]: the lines of the text, each with its line feed. *)
Fixpoint readlines (s : string) : list string :=
  match s with
  | EmptyString => []
  | String c s' =>
      if decide (c = LF) then String c EmptyString :: readlines s'
      else match readlines s' with
           | [] => [String c EmptyString]
           | line :: lines => String c line :: lines
           end
  end.

(** The vocabulary file as [__init__] finds it after training on platform
    [p] wrote it. *)
Definition trained_columns_file (p : platform) (columns : list string)
  : source (list string) :=
  Contents (readlines (read_text (write_text p (symptom_columns_txt columns)))).

(** No line feed and no carriage return in the string. *)
Fixpoint one_line (s : string) : bool :=
  match s with
  | EmptyString => true
  | String c s' => negb (bool_decide (c = LF)) && negb (bool_decide (c = CR)) && one_line s'
  end.

(** A catalog whose only name ends in a blank. *)
Definition padded_paracetamol : MedicineRow :=
  mkMedicine "Paracetamol " "cold" "Pain relief" "500mg" "Rare".

Definition padded_name_system : DiagnosisSystem :=
  {| model := flu_model;
     symptom_columns := ["fever"; "cough"; "headache"; "sore_throat"];
     diseases_df := [flu_row];
     medicines_df := [padded_paracetamol] |}.

(** A system of one class, and an upload pipeline on which OCR is not
    installed. *)
Definition one_class_model : Classifier :=
  {| classes_ := ["flu"];
     predict_proba := λ _, Ok [1]%Q |}.

Definition one_class_system : DiagnosisSystem :=
  {| model := one_class_model;
     symptom_columns := ["fever"; "cough"; "headache"; "sore_throat"];
     diseases_df := [flu_row];
     medicines_df := [paracetamol; oseltamivir] |}.

Definition failing_model : Classifier :=
  {| classes_ := ["cold"; "flu"];
     predict_proba := λ _, Raise (ClassifierError "X has 4 features, but 5 were expected") |}.

Definition failing_system : DiagnosisSystem :=
  {| model := failing_model;
     symptom_columns := ["fever"; "cough"; "headache"; "sore_throat"];
     diseases_df := [flu_row];
     medicines_df := [paracetamol; oseltamivir] |}.

Definition blind_vision : Vision unit :=
  {| imdecode := λ bytes, if decide (bytes = "")
                          then Raise (cv2_error "(-215:Assertion failed) !buf.empty()")
                          else if startswith "GIF" bytes then Ok None else Ok (Some ());
     image_to_string := λ _, Raise (FileNotFoundError "tesseract is not installed") |}.

Definition flu_row_later : DiseaseRow :=
  mkDisease "flu" "Influenza, second entry" "Severe" "Yes" "See a doctor".

(** A disease table with two rows for "flu", behind a row for "cold". *)
Definition two_flu_rows_system : DiagnosisSystem :=
  {| model := flu_model;
     symptom_columns := ["fever"; "cough"; "headache"; "sore_throat"];
     diseases_df := [cold_row; flu_row; flu_row_later];
     medicines_df := [paracetamol; oseltamivir] |}.

(** * Properties *)

(** ** Worked inputs *)

Example encode_fever_cough :
  encode (symptom_columns flu_system) ["fever"; "cough"] = Ok [1; 1; 0; 0]%Q.
Proof. reflexivity. Qed.

Example diagnose_fever_cough :
  diagnose (np:=insertion_numpy) flu_system ["fever"; "cough"] =
  Ok {| diagnosis := "flu"; confidence := 0.7%Q;
        possible_diagnoses := [("flu", 0.7); ("cold", 0.2); ("migraine", 0.1)]%Q;
        disease_info := flu_row; medicines := [oseltamivir] |}.
Proof. reflexivity. Qed.

Example analyze_paracetamol :
  app.analyze_medicine flu_system "  I took ParAcetamol today
" = Ok (app.success [paracetamol] "i took paracetamol today").
Proof. reflexivity. Qed.

(** ** Strings: [str_in] is the contiguous-substring test *)

Lemma append_String c s t : String c s +:+ t = String c (s +:+ t).
Proof. reflexivity. Qed.

Lemma append_Empty t : EmptyString +:+ t = t.
Proof. reflexivity. Qed.

Lemma startswith_spec p s :
  startswith p s = true ↔ ∃ after, s = p +:+ after.
Proof.
  revert s. induction p as [|a p IH]; intros s; simpl.
  - split; [eauto | done].
  - destruct s as [|b s].
    + split; [done | intros [? ?]; discriminate].
    + setoid_rewrite append_String. destruct (decide (a = b)) as [->|Hne].
      * rewrite IH. split; intros [after H]; exists after; congruence.
      * split; [done | intros [? H]; congruence].
Qed.

Lemma str_in_spec s t : str_in s t = true ↔ substring_of s t.
Proof.
  unfold substring_of. induction t as [|c t IH]; simpl.
  - rewrite orb_false_r, startswith_spec. split.
    + intros [after H]. by exists EmptyString, after.
    + intros [[|? ?] [after H]]; [eauto | discriminate].
  - rewrite orb_true_iff, IH, startswith_spec. split.
    + intros [[after H]|(before & after & H)].
      * by exists EmptyString, after.
      * exists (String c before), after. by rewrite append_String, H.
    + intros [[|c' before] [after H]]; rewrite ?append_String, ?append_Empty in H.
      * left. eauto.
      * right. exists before, after. congruence.
Qed.

(** *** Trimming *)

Lemma append_nonempty a r : r ≠ EmptyString → a +:+ r ≠ EmptyString.
Proof. by destruct a, r. Qed.

Lemma append_assoc a b c : (a +:+ b) +:+ c = a +:+ b +:+ c.
Proof. induction a as [|x a IH]; [done|]. by rewrite !append_String, IH. Qed.

Lemma lstrip_suffix t : ∃ a, t = a +:+ lstrip t.
Proof.
  induction t as [|c t [a IH]]; simpl.
  - by exists EmptyString.
  - destruct (isspace c).
    + exists (String c a). by rewrite append_String, <- IH.
    + by exists EmptyString.
Qed.

Lemma rstrip_prefix t : ∃ b, t = rstrip t +:+ b.
Proof.
  induction t as [|c t [b IH]]; simpl.
  - by exists EmptyString.
  - destruct (rstrip t) as [|d r] eqn:E.
    + destruct (isspace c).
      * by exists (String c t).
      * exists t. by rewrite append_String, append_Empty.
    + exists b. by rewrite append_String, <- IH.
Qed.

Lemma strip_substring t : substring_of (strip t) t.
Proof.
  destruct (lstrip_suffix t) as [a Ha], (rstrip_prefix (lstrip t)) as [b Hb].
  exists a, b. unfold strip. by rewrite <- Hb.
Qed.

Lemma substring_of_trans s t u : substring_of s t → substring_of t u → substring_of s u.
Proof.
  intros (a & b & ->) (a' & b' & ->). exists (a' +:+ a), (b +:+ b').
  by rewrite !append_assoc.
Qed.

Lemma lstrip_length s : (String.length (lstrip s) ≤ String.length s)%nat.
Proof. induction s as [|c s IH]; simpl; [done|]. destruct (isspace c); simpl; lia. Qed.

Lemma rstrip_length s : (String.length (rstrip s) ≤ String.length s)%nat.
Proof.
  induction s as [|c s IH]; simpl; [done|].
  destruct (rstrip s); [destruct (isspace c)|]; simpl in *; lia.
Qed.

Lemma lstrip_fixed_head c s : lstrip (String c s) = String c s → isspace c = false.
Proof.
  simpl. destruct (isspace c); [|done]. intros H.
  pose proof (lstrip_length s) as Hlen. rewrite H in Hlen. simpl in Hlen. lia.
Qed.

Lemma strip_fixed s : strip s = s → lstrip s = s ∧ rstrip s = s.
Proof.
  intros H. assert (lstrip s = s) as Hl.
  { destruct s as [|c s]; [done|]. simpl. destruct (isspace c) eqn:E; [|done].
    exfalso. pose proof (rstrip_length (lstrip (String c s))) as H1.
    fold (strip (String c s)) in H1. rewrite H in H1. simpl in H1.
    rewrite E in H1. pose proof (lstrip_length s). lia. }
  split; [done|]. unfold strip in H. by rewrite Hl in H.
Qed.

Lemma lstrip_append a c u :
  isspace c = false → lstrip (a +:+ String c u) = lstrip a +:+ String c u.
Proof.
  intros Hc. induction a as [|x a IH]; simpl.
  - by rewrite Hc.
  - destruct (isspace x); [done|]. by rewrite append_String.
Qed.

Lemma rstrip_cons_nonempty c s :
  rstrip s ≠ EmptyString → rstrip (String c s) = String c (rstrip s).
Proof. cbn [rstrip]. by destruct (rstrip s). Qed.

Lemma rstrip_cons_nonspace c s :
  isspace c = false → rstrip (String c s) = String c (rstrip s).
Proof. intros Hc. cbn [rstrip]. rewrite Hc. by destruct (rstrip s). Qed.

Lemma rstrip_fixed_tail c s :
  rstrip (String c s) = String c s →
  rstrip s = s ∧ (s = EmptyString → isspace c = false).
Proof.
  cbn [rstrip]. destruct (rstrip s) as [|d r] eqn:E.
  - destruct (isspace c); [done|]. by intros [= <-].
  - intros [= <-]. done.
Qed.

Lemma rstrip_append_l x y :
  rstrip y ≠ EmptyString → rstrip (x +:+ y) = x +:+ rstrip y.
Proof.
  intros Hy. induction x as [|c x IH]; [done|].
  rewrite !append_String, rstrip_cons_nonempty; rewrite IH; [done|].
  by apply append_nonempty.
Qed.

Lemma rstrip_append_fixed s b :
  s ≠ EmptyString → rstrip s = s → rstrip (s +:+ b) = s +:+ rstrip b.
Proof.
  induction s as [|c s IH]; [done|]. intros _ Hfix.
  apply rstrip_fixed_tail in Hfix as [Hs Hc]. rewrite !append_String.
  destruct s as [|d s].
  - rewrite !append_Empty. by apply rstrip_cons_nonspace, Hc.
  - rewrite rstrip_cons_nonempty; rewrite IH by done; [done|].
    by rewrite append_String.
Qed.

(** A word without white space at its ends occurs in the trimmed text
    exactly when it occurs in the text. *)
Lemma substring_of_strip s t :
  strip s = s → substring_of s (strip t) ↔ substring_of s t.
Proof.
  intros Hs. split.
  - intros H. eapply substring_of_trans; [exact H | apply strip_substring].
  - intros (a & b & ->). destruct s as [|c s].
    { exists EmptyString. eexists. by rewrite !append_Empty. }
    apply strip_fixed in Hs as [Hl Hr]. apply lstrip_fixed_head in Hl.
    exists (lstrip a), (rstrip b). unfold strip.
    rewrite append_String, lstrip_append by done.
    rewrite <- append_String.
    assert (rstrip (String c s +:+ b) = String c s +:+ rstrip b) as Hsb
      by (by apply rstrip_append_fixed).
    rewrite rstrip_append_l; rewrite Hsb; [done|].
    by rewrite append_String.
Qed.

(** ** The medicine text matcher *)

(** The loop with its accumulator: hits are appended behind what is there. *)
Lemma collect_matches_acc (text : string) (df acc : list MedicineRow) :
  foldl (λ (matches : list MedicineRow) row,
           if str_in (lower (med_name row)) text
           then (matches ++ [row])%list else matches) acc df
  = (acc ++ filter (hit text) df)%list.
Proof.
  revert acc. induction df as [|row df IH]; intros acc; simpl.
  - by rewrite app_nil_r.
  - rewrite IH, filter_cons.
    destruct (str_in (lower (med_name row)) text) eqn:E.
    + rewrite decide_True by done. by rewrite <- app_assoc.
    + rewrite decide_False by (unfold hit; congruence). done.
Qed.

Lemma collect_matches_filter (text : string) (df : list MedicineRow) :
  app.collect_matches df text = filter (hit text) df.
Proof. unfold app.collect_matches. by rewrite collect_matches_acc. Qed.

Lemma analyze_medicine_unfold sys text :
  app.analyze_medicine sys text =
  Ok (match app.collect_matches (medicines_df sys) (lower (strip text)) with
      | [] => app.not_found "No medicine information found in the image" (lower (strip text))
      | ms => app.success ms (lower (strip text))
      end).
Proof.
  unfold app.analyze_medicine.
  by destruct (app.collect_matches _ _).
Qed.

(** C8, as the specification has it, fails: the text is trimmed before it
    is searched, and a catalog name is not.  The name "Paracetamol " ends in
    a blank; lowercased it occurs in the lowercased text "take paracetamol ",
    yet the row is not matched, because the blank at the end of the text is
    gone when the search runs. *)
Lemma padded_name_not_matched :
  padded_paracetamol ∈ medicines_df padded_name_system ∧
  substring_of (lower (med_name padded_paracetamol)) (lower "take paracetamol ") ∧
  app.analyze_medicine padded_name_system "take paracetamol "
  = Ok (app.not_found "No medicine information found in the image" "take paracetamol") ∧
  ¬ (∀ (sys : DiagnosisSystem) (text : string),
       ∃ matches : list MedicineRow,
         (∀ row, row ∈ matches ↔
                 row ∈ medicines_df sys ∧
                 substring_of (lower (med_name row)) (lower text)) ∧
         app.analyze_medicine sys text =
         Ok (match matches with
             | [] => app.not_found "No medicine information found in the image"
                                   (lower (strip text))
             | _ => app.success matches (lower (strip text))
             end)).
Proof.
  assert (padded_paracetamol ∈ medicines_df padded_name_system) as Hrow by (by left).
  assert (substring_of (lower (med_name padded_paracetamol)) (lower "take paracetamol "))
    as Hsub by (by exists "take ", "").
  split; [done|]. split; [done|]. split; [reflexivity|].
  intros H. destruct (H padded_name_system "take paracetamol ") as (matches & Hin & Hr).
  assert (padded_paracetamol ∈ matches) as Hm by (by apply Hin).
  destruct matches as [|row matches]; [by apply elem_of_nil in Hm|].
  vm_compute in Hr. discriminate Hr.
Qed.

(** C8, amended: the matcher trims the text of surrounding white space and
    lowercases it; a catalog row is in the match set exactly when its
    lowercased name occurs as a contiguous substring of that processed
    text.  With no such row the response is [not_found] and carries the
    processed text; otherwise it is [success] with the matched rows and the
    processed text.  The matcher never raises. *)
Theorem analyze_medicine_match_set (sys : DiagnosisSystem) (text : string) :
  ∃ matches : list MedicineRow,
    (∀ row, row ∈ matches ↔
            row ∈ medicines_df sys ∧
            substring_of (lower (med_name row)) (lower (strip text))) ∧
    app.analyze_medicine sys text =
    Ok (match matches with
        | [] => app.not_found "No medicine information found in the image"
                              (lower (strip text))
        | _ => app.success matches (lower (strip text))
        end).
Proof.
  exists (app.collect_matches (medicines_df sys) (lower (strip text))). split.
  - intros row. rewrite collect_matches_filter, list_elem_of_filter.
    unfold hit. rewrite str_in_spec. tauto.
  - rewrite analyze_medicine_unfold. by destruct (app.collect_matches _ _).
Qed.

(** C10: the rows of the response are the catalog with the rows that do not
    match left out, so they stand in catalog row order; the response is a
    function of the catalog and the text. *)
Theorem analyze_medicine_catalog_order (sys : DiagnosisSystem) (text : string) :
  ∃ r : app.MatchResult,
    app.analyze_medicine sys text = Ok r ∧
    matched r = filter (λ row, str_in (lower (med_name row)) (lower (strip text)) = true)
                       (medicines_df sys) ∧
    matched r `sublist_of` medicines_df sys.
Proof.
  eexists. split; [apply analyze_medicine_unfold|].
  assert (matched
    match app.collect_matches (medicines_df sys) (lower (strip text)) with
    | [] => app.not_found "No medicine information found in the image" (lower (strip text))
    | ms => app.success ms (lower (strip text))
    end = app.collect_matches (medicines_df sys) (lower (strip text))) as ->
    by (by destruct (app.collect_matches _ _)).
  rewrite collect_matches_filter. split; [done | apply sublist_filter].
Qed.

(** ** Start-up *)

Lemma unavailable_Contents {A} (a : A) : ¬ unavailable (Contents a).
Proof. intros H. by apply (H a). Qed.

Lemma init_Contents m lines d md :
  init (mkFiles (Contents m) (Contents lines) (Contents d) (Contents md)) =
  if df_empty d || df_empty md
  then Raise (ValueError "CSV files are empty")
  else Ok (mkSystem m (strip <$> lines) d md).
Proof. unfold init; simpl. by destruct (df_empty d || df_empty md). Qed.

(** C9, as the specification has it, fails: with an empty vocabulary file
    and the other three sources in order, start-up succeeds. *)
Lemma init_accepts_empty_vocabulary :
  spec_must_fail empty_vocabulary_files ∧
  init empty_vocabulary_files = Ok (mkSystem flu_model [] [flu_row] [paracetamol]) ∧
  ¬ (∀ fs, spec_must_fail fs → init_fails fs).
Proof.
  assert (spec_must_fail empty_vocabulary_files) as Hbad.
  { do 4 right. by left. }
  split; [done|]. split; [done|].
  intros H. by destruct (H _ Hbad) as [e He].
Qed.

(** C9, amended: start-up fails exactly when one of the four sources is
    missing, unreadable or malformed, or the disease table or the medicine
    table has no rows.  When it succeeds the system holds what was loaded:
    the classifier, the vocabulary lines with their surrounding white space
    removed, and the two tables. *)
Theorem init_fails_iff (fs : Files) :
  (init_fails fs ↔ code_must_fail fs) ∧
  (∀ sys, init fs = Ok sys →
     model_path fs = Contents (model sys) ∧
     (∃ lines, columns_path fs = Contents lines ∧
               symptom_columns sys = strip <$> lines) ∧
     diseases_path fs = Contents (diseases_df sys) ∧
     medicines_path fs = Contents (medicines_df sys) ∧
     diseases_df sys ≠ [] ∧ medicines_df sys ≠ []).
Proof.
  destruct fs as [[| | |m] [| | |lines] [| | |d] [| | |md]];
    try (split;
         [ split;
           [ intros _; unfold code_must_fail, unavailable; simpl;
             first [ by left | by (right; left) | by (do 2 right; left)
                   | by (do 3 right; left) ]
           | intros _; eexists; reflexivity ]
         | intros sys Hsys; discriminate Hsys ]).
  unfold init_fails, code_must_fail. rewrite init_Contents. simpl.
  destruct d as [|row d], md as [|mrow md]; simpl; split;
    try (split; [ intros _; unfold loads_empty; tauto
                | intros _; eexists; reflexivity ]);
    try (intros sys Hsys; discriminate Hsys).
  - split.
    + intros [e He]. discriminate He.
    + intros [H|[H|[H|[H|[H|H]]]]];
        try (by apply unavailable_Contents in H); discriminate H.
  - intros sys [= <-]. simpl. eauto 10.
Qed.

(** ** The empty request *)

(** The method itself has no guard: on the empty list it encodes the zero
    vector, runs the classifier and returns a diagnosis. *)
Example diagnose_method_accepts_empty :
  diagnose (np:=insertion_numpy) flu_system [] =
  Ok {| diagnosis := "flu"; confidence := 0.7%Q;
        possible_diagnoses := [("flu", 0.7); ("cold", 0.2); ("migraine", 0.1)]%Q;
        disease_info := flu_row; medicines := [oseltamivir] |}.
Proof. reflexivity. Qed.

(** C1: on the empty symptom list the handler raises its status-400
    exception inside its own [try], and the [except Exception] clause around
    it turns that into a status-500 exception whose detail is the printed
    status-400 one.  This happens for every system, whatever its classifier;
    no error of the handler reaches the caller with a status other than
    500. *)
Theorem handler_reports_empty_request_as_500 {np : Numpy} (sys : DiagnosisSystem) :
  app.diagnose sys []
  = Raise (HTTPException 500 (exn_str (HTTPException 400 "No symptoms provided"))) ∧
  exn_str (HTTPException 400 "No symptoms provided") = "400: No symptoms provided" ∧
  ∀ symptoms e, app.diagnose sys symptoms = Raise e →
                ∃ detail, e = HTTPException 500 detail.
Proof.
  split; [reflexivity|]. split; [reflexivity|].
  intros symptoms e. unfold app.diagnose.
  destruct (decide (symptoms = [])) as [_|_]; simpl.
  - intros [= <-]. eauto.
  - destruct (diagnose sys symptoms) as [r|e']; simpl; [done|].
    intros [= <-]. eauto.
Qed.

(** ** The feature encoder *)

Lemma indicator_length cols symptoms : length (indicator cols symptoms) = length cols.
Proof.
  revert symptoms. induction cols as [|c cols IH]; intros symptoms; simpl; [done|].
  by rewrite IH.
Qed.

Lemma indicator_binary cols symptoms :
  Forall (λ x, x = 0%Q ∨ x = 1%Q) (indicator cols symptoms).
Proof.
  revert symptoms. induction cols as [|c cols IH]; intros symptoms; simpl.
  - constructor.
  - constructor; [case_decide; auto | apply IH].
Qed.

Lemma indicator_nil cols : indicator cols [] = replicate (length cols) 0%Q.
Proof.
  induction cols as [|c cols IH]; simpl; [done|].
  by rewrite filter_nil, IH.
Qed.

(** Only membership of vocabulary words matters. *)
Lemma indicator_ext cols s1 s2 :
  (∀ x, x ∈ cols → (x ∈ s1 ↔ x ∈ s2)) →
  indicator cols s1 = indicator cols s2.
Proof.
  revert s1 s2. induction cols as [|c cols IH]; intros s1 s2 H; simpl; [done|].
  f_equal.
  - specialize (H c (list_elem_of_here _ _)).
    destruct (decide (c ∈ s1)), (decide (c ∈ s2)); tauto.
  - apply IH. intros x Hx. rewrite !list_elem_of_filter.
    specialize (H x (list_elem_of_further _ _ _ Hx)). tauto.
Qed.

Lemma indicator_unknown cols symptoms s :
  s ∉ cols → indicator cols (s :: symptoms) = indicator cols symptoms.
Proof.
  intros Hs. apply indicator_ext. intros x Hx. rewrite elem_of_cons.
  split; [intros [->|?]; done | auto].
Qed.

Lemma index_mark cols symptoms s :
  s ∈ cols →
  ∃ idx, index cols s = Ok idx ∧ (idx < length cols)%nat ∧
         <[idx:=1%Q]> (indicator cols symptoms) = indicator cols (s :: symptoms).
Proof.
  revert symptoms. induction cols as [|c cols IH]; intros symptoms Hs.
  - by apply elem_of_nil in Hs.
  - simpl. destruct (decide (s = c)) as [->|Hne].
    + exists 0%nat. split; [done|]. split; [lia|]. simpl.
      rewrite decide_True by apply list_elem_of_here.
      rewrite filter_cons_False by (intros H; by apply H). done.
    + apply elem_of_cons in Hs as [?|Hs]; [done|].
      destruct (IH (filter (λ x, x ≠ c) symptoms) Hs) as (idx & Hidx & Hlt & Hset).
      exists (S idx). rewrite Hidx. split; [done|]. split; [lia|]. simpl.
      rewrite filter_cons_True by done. rewrite Hset. f_equal.
      destruct (decide (c ∈ symptoms)) as [Hc|Hc].
      * rewrite decide_True by (by apply list_elem_of_further). done.
      * rewrite decide_False; [done|]. rewrite elem_of_cons. intros [?|?]; congruence.
Qed.

Lemma mark_symptom_indicator cols seen s :
  mark_symptom cols (indicator cols seen) s = Ok (indicator cols (s :: seen)).
Proof.
  unfold mark_symptom. destruct (decide (s ∈ cols)) as [Hs|Hs].
  - destruct (index_mark cols seen s Hs) as (idx & -> & Hlt & Hset). simpl.
    unfold setitem. rewrite decide_True by (by rewrite indicator_length).
    by rewrite Hset.
  - by rewrite indicator_unknown.
Qed.

Lemma mark_symptoms_indicator cols seen symptoms :
  mark_symptoms cols (indicator cols seen) symptoms
  = Ok (indicator cols (reverse symptoms ++ seen)).
Proof.
  revert seen. induction symptoms as [|s symptoms IH]; intros seen; simpl; [done|].
  rewrite mark_symptom_indicator. simpl. rewrite IH.
  by rewrite reverse_cons, <- app_assoc.
Qed.

Lemma encode_indicator cols symptoms : encode cols symptoms = Ok (indicator cols symptoms).
Proof.
  unfold encode. rewrite <- indicator_nil, mark_symptoms_indicator. f_equal.
  apply indicator_ext. intros x _. rewrite app_nil_r. apply elem_of_reverse.
Qed.

Lemma count_ones_indicator cols symptoms :
  count_ones (indicator cols symptoms)
  = size (list_to_set symptoms ∩ list_to_set cols : gset string).
Proof.
  revert symptoms. induction cols as [|c cols IH]; intros symptoms.
  - simpl. rewrite (right_absorb_L ∅ (∩)). done.
  - simpl. unfold count_ones in *. rewrite filter_cons.
    assert ((list_to_set (filter (λ s, s ≠ c) symptoms) : gset string)
            = list_to_set symptoms ∖ {[c]}) as Hrem.
    { apply set_eq. intros x.
      rewrite elem_of_difference, !elem_of_list_to_set, list_elem_of_filter,
        elem_of_singleton.
      tauto. }
    destruct (decide (c ∈ symptoms)) as [Hc|Hc].
    + rewrite decide_True by done. simpl. rewrite IH, Hrem.
      assert ((list_to_set symptoms ∩ ({[c]} ∪ list_to_set cols) : gset string)
              = {[c]} ∪ (list_to_set symptoms ∖ {[c]}) ∩ list_to_set cols) as ->.
      { apply set_eq. intros x.
        rewrite !elem_of_intersection, !elem_of_union, elem_of_intersection,
          elem_of_difference, elem_of_singleton, elem_of_list_to_set.
        destruct (decide (x = c)) as [->|]; tauto. }
      pose proof (size_union (C:=gset string) {[c]}
                    ((list_to_set symptoms ∖ {[c]}) ∩ list_to_set cols)) as Hsz.
      rewrite Hsz, size_singleton; [done|].
      intros x Hx1 Hx2. apply elem_of_singleton in Hx1 as ->.
      apply elem_of_intersection in Hx2 as [Hx2 _].
      apply elem_of_difference in Hx2 as [_ Hx2].
      apply Hx2. by apply elem_of_singleton.
    + rewrite decide_False by done. rewrite IH, Hrem. f_equal.
      apply set_eq. intros x.
      rewrite !elem_of_intersection, elem_of_union, elem_of_difference,
        elem_of_singleton, elem_of_list_to_set.
      destruct (decide (x = c)) as [->|]; tauto.
Qed.

(** The 1s stand at the first position of each reported vocabulary word. *)
Lemma indicator_lookup cols symptoms i :
  indicator cols symptoms !! i = Some 1%Q ↔
  ∃ c, cols !! i = Some c ∧ c ∈ symptoms ∧ c ∉ take i cols.
Proof.
  revert symptoms i. induction cols as [|c cols IH]; intros symptoms i.
  - simpl. rewrite !lookup_nil. split; [done | by intros (? & ? & _)].
  - destruct i as [|i]; cbn [indicator lookup list_lookup take].
    + split.
      * destruct (decide (c ∈ symptoms)); [|done]. intros _. exists c.
        split; [done|]. split; [done|]. apply not_elem_of_nil.
      * intros (c' & [= <-] & Hc & _). by rewrite decide_True.
    + rewrite IH. split.
      * intros (c' & Hlook & Hin & Hnot). exists c'.
        apply list_elem_of_filter in Hin as [Hne Hin].
        split; [done|]. split; [done|]. rewrite not_elem_of_cons. done.
      * intros (c' & Hlook & Hin & Hnot). exists c'.
        apply not_elem_of_cons in Hnot as [Hne Hnot].
        split; [done|]. split; [|done]. by apply list_elem_of_filter.
Qed.

(** C5: for every list of reported symptoms, [encode] returns a vector (it
    does not raise) of the vocabulary's length, with entries 0 and 1 only,
    and as many 1s as there are distinct reported symptoms in the
    vocabulary; a 1 stands where a reported word first occurs in the
    vocabulary.  A second list with the same vocabulary words in it, in any
    order, any number of times, with any unknown words added, encodes to the
    same vector; the empty list encodes to the zero vector. *)
Theorem encode_properties (cols symptoms : list string) :
  ∃ v : list Q,
    encode cols symptoms = Ok v ∧
    length v = length cols ∧
    Forall (λ x, x = 0%Q ∨ x = 1%Q) v ∧
    count_ones v = size (list_to_set symptoms ∩ list_to_set cols : gset string) ∧
    (∀ i, v !! i = Some 1%Q ↔
          ∃ c, cols !! i = Some c ∧ c ∈ symptoms ∧ c ∉ take i cols) ∧
    (∀ symptoms', (∀ x, x ∈ cols → (x ∈ symptoms' ↔ x ∈ symptoms)) →
                  encode cols symptoms' = Ok v) ∧
    encode cols [] = Ok (replicate (length cols) 0%Q).
Proof.
  exists (indicator cols symptoms).
  split; [apply encode_indicator|].
  split; [apply indicator_length|].
  split; [apply indicator_binary|].
  split; [apply count_ones_indicator|].
  split; [apply indicator_lookup|].
  split; [|done].
  intros symptoms' H. rewrite encode_indicator. f_equal. by apply indicator_ext.
Qed.

(** ** Sorting by value *)

Lemma StronglySorted_impl {A} (R1 R2 : relation A) (l : list A) :
  (∀ x y, x ∈ l → y ∈ l → R1 x y → R2 x y) →
  StronglySorted R1 l → StronglySorted R2 l.
Proof.
  induction l as [|x l IH]; intros HR Hl; [constructor|].
  apply StronglySorted_inv in Hl as [Hl Hx]. constructor.
  - apply IH; [|done]. intros y z Hy Hz. apply HR; by right.
  - rewrite Forall_forall in Hx |- *. intros y Hy.
    apply HR; [by left | by right | by apply Hx].
Qed.

Lemma StronglySorted_reverse {A} (R : relation A) (l : list A) :
  StronglySorted R l → StronglySorted (flip R) (reverse l).
Proof.
  induction 1 as [|x l Hl IH Hx]; [constructor|].
  rewrite reverse_cons. apply StronglySorted_app_2; [|done|repeat constructor].
  intros y z Hy Hz. apply list_elem_of_singleton in Hz as ->.
  rewrite elem_of_reverse in Hy. rewrite Forall_forall in Hx.
  unfold flip. by apply Hx.
Qed.

Lemma StronglySorted_fmap_impl {A B} (R : relation A) (R' : relation B) (f : A → B) l :
  StronglySorted R l →
  (∀ x y, x ∈ l → y ∈ l → R x y → R' (f x) (f y)) →
  StronglySorted R' (f <$> l).
Proof.
  induction 1 as [|x l Hl IH Hx]; intros HR; [constructor|].
  rewrite fmap_cons. constructor.
  - apply IH. intros y z Hy Hz. apply HR; by right.
  - apply Forall_fmap, Forall_forall. rewrite Forall_forall in Hx.
    intros y Hy. apply HR; [by left | by right | by apply Hx].
Qed.

Lemma last_n_fmap {A B} (f : A → B) n (l : list A) :
  last_n n (f <$> l) = f <$> last_n n l.
Proof. unfold last_n. by rewrite length_fmap, fmap_drop. Qed.

Lemma last_n_short {A} n (l : list A) : (length l ≤ n)%nat → last_n n l = l.
Proof. intros H. unfold last_n. by replace (length l - n)%nat with 0%nat by lia. Qed.

Lemma last_n_length {A} n (l : list A) : length (last_n n l) = (n `min` length l)%nat.
Proof. unfold last_n. rewrite length_drop. lia. Qed.

Section sorting.
Context {A : Type}.
Implicit Types (x y : A * Q) (l s : list (A * Q)).

Lemma insert_by_value_perm x l : insert_by_value x l ≡ₚ x :: l.
Proof.
  induction l as [|y l IH]; simpl; [done|].
  destruct (Qle_bool x.2 y.2); [done|].
  rewrite IH. apply Permutation_swap.
Qed.

Lemma sort_by_value_perm l : sort_by_value l ≡ₚ l.
Proof.
  induction l as [|x l IH]; simpl; [done|].
  by rewrite insert_by_value_perm, IH.
Qed.

Lemma sort_by_value_length l : length (sort_by_value l) = length l.
Proof. by rewrite sort_by_value_perm. Qed.

Lemma insert_by_value_sorted (R0 : relation A) x s :
  StronglySorted (value_then R0) s →
  Forall (λ y, R0 x.1 y.1) s →
  StronglySorted (value_then R0) (insert_by_value x s).
Proof.
  induction s as [|y s IH]; intros Hs Hx; simpl.
  - repeat constructor.
  - apply StronglySorted_inv in Hs as [Hs Hy].
    apply Forall_cons in Hx as [Hxy Hx].
    destruct (Qle_bool x.2 y.2) eqn:E.
    + apply Qle_bool_iff in E.
      constructor; [by constructor|]. constructor.
      * destruct (Qle_lt_or_eq _ _ E); [by left | by right].
      * rewrite Forall_forall in Hy, Hx |- *. intros z Hz.
        assert (y.2 <= z.2)%Q as Hyz.
        { destruct (Hy z Hz) as [?|[Heq _]];
            [by apply Qlt_le_weak | by rewrite Heq; apply Qle_refl]. }
        destruct (Qle_lt_or_eq _ _ (Qle_trans _ _ _ E Hyz));
          [by left | right; auto].
    + assert (y.2 < x.2)%Q as Hlt.
      { apply Qnot_le_lt. intros H. apply Qle_bool_iff in H. congruence. }
      constructor; [by apply IH|].
      rewrite Forall_forall in Hy |- *. intros z Hz.
      rewrite insert_by_value_perm in Hz.
      apply elem_of_cons in Hz as [->|Hz]; [by left | by apply Hy].
Qed.

(** The sort is stable: pairs that the input has in [R0] order come out
    ascending by value, and in [R0] order where the values are equal. *)
Lemma sort_by_value_stable (R0 : relation A) l :
  StronglySorted (λ x y, R0 x.1 y.1) l →
  StronglySorted (value_then R0) (sort_by_value l).
Proof.
  induction l as [|x l IH]; intros Hl; simpl; [constructor|].
  apply StronglySorted_inv in Hl as [Hl Hx].
  apply insert_by_value_sorted; [by apply IH|].
  by rewrite sort_by_value_perm.
Qed.
End sorting.

Lemma enumerate_lookup (probs : list Q) i p :
  (i, p) ∈ zip (seq 0 (length probs)) probs ↔ probs !! i = Some p.
Proof.
  rewrite list_elem_of_lookup. split.
  - intros [n Hn]. apply lookup_zip_with_Some in Hn as (k & q & [= -> ->] & Hk & Hq).
    by apply lookup_seq in Hk as [-> _].
  - intros Hp. exists i. apply lookup_zip_with_Some. exists i, p.
    split; [done|]. split; [|done]. apply lookup_seq. split; [done|].
    by apply lookup_lt_Some in Hp.
Qed.

Lemma enumerate_sorted (probs : list Q) k n :
  StronglySorted (λ x y : nat * Q, (x.1 < y.1)%nat) (zip (seq k n) probs).
Proof.
  revert k probs. induction n as [|n IH]; intros k [|p probs]; try constructor.
  - apply IH.
  - apply Forall_forall. intros [j q] Hj. apply elem_of_zip_l in Hj.
    apply elem_of_seq in Hj. simpl in *. lia.
Qed.

(** The insertion sort does what numpy documents of [argsort]. *)
Lemma insertion_numpy_sorts : argsort_sorts insertion_numpy.
Proof.
  intros a. cbn [argsort insertion_numpy]. unfold insertion_argsort. split.
  - rewrite sort_by_value_perm. by rewrite fst_zip by (by rewrite length_seq).
  - apply (StronglySorted_fmap_impl (value_then lt)).
    + apply sort_by_value_stable, enumerate_sorted.
    + intros [i p] [j q] Hi Hj Hlt. rewrite sort_by_value_perm in Hi, Hj.
      apply enumerate_lookup in Hi, Hj. exists p, q.
      split; [done|]. split; [done|].
      destruct Hlt as [Hlt|[Heq _]]; simpl in *;
        [by apply Qlt_le_weak | by rewrite Heq; apply Qle_refl].
Qed.

Lemma StronglySorted_any_order {A} (l : list A) :
  StronglySorted (λ _ _, True) l.
Proof.
  induction l; constructor; [done|]. by apply Forall_forall.
Qed.

(** So does the mirrored one. *)
Lemma mirrored_numpy_sorts : argsort_sorts mirrored_numpy.
Proof.
  intros a. cbn [argsort mirrored_numpy]. unfold mirrored_argsort. split.
  - rewrite sort_by_value_perm, reverse_Permutation.
    by rewrite fst_zip by (by rewrite length_seq).
  - apply (StronglySorted_fmap_impl (value_then (λ _ _, True))).
    + apply sort_by_value_stable, StronglySorted_any_order.
    + intros [i p] [j q] Hi Hj Hlt.
      rewrite sort_by_value_perm, reverse_Permutation in Hi, Hj.
      apply enumerate_lookup in Hi, Hj. exists p, q.
      split; [done|]. split; [done|].
      destruct Hlt as [Hlt|[Heq _]]; simpl in *;
        [by apply Qlt_le_weak | by rewrite Heq; apply Qle_refl].
Qed.

(** ** The ranking *)

Lemma mapM_fmap_Ok {A B C} (f : A → result B) (g : C → A) (h : C → B) (L : list C) :
  Forall (λ t, f (g t) = Ok (h t)) L → mapM f (g <$> L) = Ok (h <$> L).
Proof.
  induction 1 as [|t L Ht _ IH]; [done|].
  rewrite !fmap_cons. cbn [mapM]. rewrite Ht, IH. done.
Qed.

Lemma mapM_Ok_Forall2 {A B} (f : A → result B) (l : list A) (out : list B) :
  mapM f l = Ok out → Forall2 (λ x y, f x = Ok y) l out.
Proof.
  revert out. induction l as [|x l IH]; intros out; cbn [mapM].
  - intros [= <-]. constructor.
  - destruct (f x) as [y|e] eqn:Hx; [|done]. simpl.
    destruct (mapM f l) as [k|e] eqn:Hl; [|done]. simpl.
    intros [= <-]. constructor; [done | by apply IH].
Qed.

Section ranking.
Context {np : Numpy} (np_sorts : argsort_sorts np).
Variables (classes : list string) (probs : list Q).
Hypothesis same_length : length probs = length classes.

Lemma argsort_length : length (argsort probs) = length probs.
Proof.
  destruct (np_sorts probs) as [Hperm _]. by rewrite Hperm, length_seq.
Qed.

Lemma argsort_elem i : i ∈ argsort probs ↔ (i < length probs)%nat.
Proof.
  clear same_length.
  destruct (np_sorts probs) as [Hperm _]. rewrite Hperm, elem_of_seq. lia.
Qed.

Lemma argsort_NoDup : NoDup (argsort probs).
Proof.
  destruct (np_sorts probs) as [Hperm _]. rewrite Hperm. apply NoDup_seq.
Qed.

Lemma pair_at_lookup i :
  (i < length probs)%nat →
  ∃ c p, classes !! i = Some c ∧ probs !! i = Some p ∧
         pair_at classes probs i = (c, p).
Proof.
  intros Hi. unfold pair_at.
  destruct (lookup_lt_is_Some_2 probs i Hi) as [p ->].
  destruct (lookup_lt_is_Some_2 classes i) as [c ->]; [lia|]. by exists c, p.
Qed.

Lemma pair_at_seq :
  pair_at classes probs <$> seq 0 (length probs) = zip classes probs.
Proof.
  apply list_eq. intros i. rewrite list_lookup_fmap, lookup_zip_with.
  destruct (decide (i < length probs)%nat) as [Hi|Hi].
  - rewrite lookup_seq_lt by done. simpl.
    destruct (pair_at_lookup i Hi) as (c & p & -> & -> & ->). done.
  - rewrite lookup_seq_ge by lia. simpl.
    rewrite (lookup_ge_None_2 classes) by lia. done.
Qed.

Lemma sorted_pairs_perm : sorted_pairs classes probs ≡ₚ zip classes probs.
Proof.
  unfold sorted_pairs. destruct (np_sorts probs) as [Hperm _].
  by rewrite Hperm, pair_at_seq.
Qed.

Lemma sorted_pairs_ascending :
  StronglySorted (λ a b, (a.2 <= b.2)%Q) (sorted_pairs classes probs).
Proof.
  unfold sorted_pairs. destruct (np_sorts probs) as [_ Hasc].
  apply (StronglySorted_fmap_impl _ _ _ _ Hasc).
  intros i j _ _ (p & q & Hp & Hq & Hle). unfold pair_at. by rewrite Hp, Hq.
Qed.

Lemma ranking_top_indices :
  ranking classes probs = pair_at classes probs <$> top_indices probs.
Proof.
  unfold ranking, sorted_pairs, top_indices. by rewrite last_n_fmap, fmap_reverse.
Qed.

Lemma top_indices_elem i : i ∈ top_indices probs → (i < length probs)%nat.
Proof.
  clear same_length.
  unfold top_indices, last_n. rewrite elem_of_reverse. intros Hi.
  apply subseteq_drop in Hi. by apply argsort_elem.
Qed.

(** Lines 74-81 compute the ranking, and do not raise. *)
Lemma possible_diagnoses_of_ranking :
  possible_diagnoses_of classes probs = Ok (ranking classes probs).
Proof.
  unfold possible_diagnoses_of. rewrite ranking_top_indices.
  rewrite <- (list_fmap_id (top_indices probs)) at 1.
  apply mapM_fmap_Ok. apply Forall_forall. intros i Hi. simpl.
  apply top_indices_elem in Hi.
  destruct (pair_at_lookup i Hi) as (c & p & Hc & Hp & ->).
  unfold getitem. by rewrite Hc, Hp.
Qed.

Lemma ranking_length :
  length (ranking classes probs) = (3 `min` length classes)%nat.
Proof.
  unfold ranking, sorted_pairs.
  rewrite length_reverse, last_n_length, length_fmap, argsort_length. lia.
Qed.

Lemma ranking_descending :
  StronglySorted (λ a b, (b.2 <= a.2)%Q) (ranking classes probs).
Proof.
  unfold ranking, last_n.
  apply (StronglySorted_reverse (λ a b, (a.2 <= b.2)%Q)).
  eapply StronglySorted_app_1_r. rewrite take_drop. apply sorted_pairs_ascending.
Qed.

Lemma ranking_all :
  (length classes ≤ 3)%nat → ranking classes probs ≡ₚ zip classes probs.
Proof.
  intros Hn. unfold ranking.
  rewrite last_n_short.
  - by rewrite reverse_Permutation, sorted_pairs_perm.
  - unfold sorted_pairs. rewrite length_fmap, argsort_length. lia.
Qed.
End ranking.

Lemma lookup_disease_Ok df primary :
  lookup_disease df primary = Ok (disease_or_placeholder df primary).
Proof.
  unfold lookup_disease, disease_or_placeholder, getitem.
  by destruct (filter _ df).
Qed.

(** One run of [diagnose], once the classifier has answered with one
    probability per class. *)
Lemma diagnose_run {np : Numpy} sys symptoms features probs :
  argsort_sorts np →
  encode (symptom_columns sys) symptoms = Ok features →
  predict_proba (model sys) features = Ok probs →
  length probs = length (classes_ (model sys)) →
  (0 < length (classes_ (model sys)))%nat →
  ∃ primary rest,
    ranking (classes_ (model sys)) probs = primary :: rest ∧
    diagnose sys symptoms =
    Ok {| diagnosis := primary.1;
          confidence := primary.2;
          possible_diagnoses := primary :: rest;
          disease_info := disease_or_placeholder (diseases_df sys) primary.1;
          medicines := filter (λ r, med_diagnosis r = primary.1) (medicines_df sys) |}.
Proof.
  intros Hnp Henc Hprobs Hlen Hpos.
  destruct (ranking (classes_ (model sys)) probs) as [|primary rest] eqn:Hrank.
  { pose proof (ranking_length Hnp _ _ Hlen) as HL. rewrite Hrank in HL.
    cbn [length] in HL. lia. }
  exists primary, rest. split; [done|].
  unfold diagnose. rewrite Henc. simpl. rewrite Hprobs. simpl.
  rewrite possible_diagnoses_of_ranking by done. rewrite Hrank. simpl.
  rewrite lookup_disease_Ok. done.
Qed.

(** ** Disease information and medicines *)

(** C3, as the specification has it, fails: the placeholder's texts start
    with capital letters. *)
Lemma placeholder_is_capitalised :
  ∃ r, diagnose (np:=insertion_numpy) unlisted_system ["fever"] = Ok r ∧
       (∀ row, row ∈ diseases_df unlisted_system → dis_name row ≠ diagnosis r) ∧
       disease_info r = placeholder "flu" ∧
       disease_info r ≠ spec_placeholder (diagnosis r).
Proof.
  eexists. split; [reflexivity|]. simpl. split; [|done].
  intros row Hrow. apply list_elem_of_singleton in Hrow as ->. done.
Qed.

(** C3, amended: when no row of the disease table has the primary diagnosis
    as its name, [diagnose] still returns, and its [disease_info] is the
    record with name = the primary diagnosis, description = "Information not
    available", severity = "Unknown", contagious = "Unknown" and precautions
    = "Consult a healthcare professional". *)
Theorem placeholder_on_lookup_miss {np : Numpy} sys symptoms features probs :
  argsort_sorts np →
  encode (symptom_columns sys) symptoms = Ok features →
  predict_proba (model sys) features = Ok probs →
  length probs = length (classes_ (model sys)) →
  (0 < length (classes_ (model sys)))%nat →
  ∃ r, diagnose sys symptoms = Ok r ∧
       ((∀ row, row ∈ diseases_df sys → dis_name row ≠ diagnosis r) →
        disease_info r =
        {| dis_name := diagnosis r;
           dis_description := "Information not available";
           dis_severity := "Unknown";
           dis_contagious := "Unknown";
           dis_precautions := "Consult a healthcare professional" |}).
Proof.
  intros Hnp Henc Hprobs Hlen Hpos.
  destruct (diagnose_run _ _ _ _ Hnp Henc Hprobs Hlen Hpos)
    as (primary & rest & _ & ->).
  eexists. split; [done|]. simpl. intros Hmiss.
  unfold disease_or_placeholder.
  destruct (filter _ (diseases_df sys)) as [|row rows] eqn:E; [done|].
  assert (row ∈ filter (λ r, dis_name r = primary.1) (diseases_df sys)) as Hrow
    by (rewrite E; left).
  apply list_elem_of_filter in Hrow as [Hname Hrow]. by destruct (Hmiss row Hrow).
Qed.

Lemma placeholder_on_lookup_miss_witness :
  ∃ r, diagnose (np:=insertion_numpy) unlisted_system ["fever"] = Ok r ∧
       ((∀ row, row ∈ diseases_df unlisted_system → dis_name row ≠ diagnosis r) →
        disease_info r =
        {| dis_name := diagnosis r;
           dis_description := "Information not available";
           dis_severity := "Unknown";
           dis_contagious := "Unknown";
           dis_precautions := "Consult a healthcare professional" |}).
Proof.
  apply (placeholder_on_lookup_miss (np:=insertion_numpy) unlisted_system ["fever"]
           [1; 0; 0; 0]%Q [0.2; 0.7; 0.1]%Q);
    [apply insertion_numpy_sorts | reflexivity | reflexivity | reflexivity
    | simpl; lia].
Defined.

(** C4: the medicines of the result are the rows of the medicine table whose
    [diagnosis] field is the same string as the primary diagnosis, and no
    others.  A row with diagnosis "Flu" is among them when the primary
    diagnosis is "Flu" and not when it is "flu".  The list may be empty;
    [diagnose] returns all the same. *)
Theorem medicines_exact_match {np : Numpy} sys symptoms features probs :
  argsort_sorts np →
  encode (symptom_columns sys) symptoms = Ok features →
  predict_proba (model sys) features = Ok probs →
  length probs = length (classes_ (model sys)) →
  (0 < length (classes_ (model sys)))%nat →
  ∃ r, diagnose sys symptoms = Ok r ∧
       medicines r = filter (λ m, med_diagnosis m = diagnosis r) (medicines_df sys) ∧
       (∀ m, m ∈ medicines r ↔ m ∈ medicines_df sys ∧ med_diagnosis m = diagnosis r) ∧
       (∀ m, m ∈ medicines_df sys → med_diagnosis m = "Flu" →
             (diagnosis r = "Flu" → m ∈ medicines r) ∧
             (diagnosis r = "flu" → m ∉ medicines r)).
Proof.
  intros Hnp Henc Hprobs Hlen Hpos.
  destruct (diagnose_run _ _ _ _ Hnp Henc Hprobs Hlen Hpos)
    as (primary & rest & _ & ->).
  eexists. split; [done|]. simpl. split; [done|]. split.
  - intros m. rewrite list_elem_of_filter. tauto.
  - intros m Hm Hflu. rewrite !list_elem_of_filter, Hflu. split.
    + intros Hp. by rewrite Hp.
    + intros Hp [Hq _]. rewrite Hp in Hq. discriminate Hq.
Qed.

Example Flu_includes_tamiflu :
  medicines <$> diagnose (np:=insertion_numpy) Flu_system ["fever"] = Ok [tamiflu] ∧
  medicines <$> diagnose (np:=insertion_numpy) Flu_system ["cough"] = Ok [].
Proof. split; reflexivity. Qed.

Lemma medicines_exact_match_witness :
  ∃ r, diagnose (np:=insertion_numpy) Flu_system ["cough"] = Ok r ∧
       medicines r = filter (λ m, med_diagnosis m = diagnosis r) (medicines_df Flu_system) ∧
       (∀ m, m ∈ medicines r ↔
             m ∈ medicines_df Flu_system ∧ med_diagnosis m = diagnosis r) ∧
       (∀ m, m ∈ medicines_df Flu_system → med_diagnosis m = "Flu" →
             (diagnosis r = "Flu" → m ∈ medicines r) ∧
             (diagnosis r = "flu" → m ∉ medicines r)).
Proof.
  apply (medicines_exact_match (np:=insertion_numpy) Flu_system ["cough"]
           [0; 1; 0; 0]%Q [0.1; 0.9]%Q);
    [apply insertion_numpy_sorts | reflexivity | reflexivity | reflexivity
    | simpl; lia].
Defined.

(** ** Fewer than three classes *)

(** C7: when the classifier has one or two classes, [diagnose] returns
    exactly the classifier's (class, probability) pairs, each once and
    nothing else, with the probabilities descending. *)
Theorem fewer_than_three_classes {np : Numpy} sys symptoms features probs :
  argsort_sorts np →
  encode (symptom_columns sys) symptoms = Ok features →
  predict_proba (model sys) features = Ok probs →
  length probs = length (classes_ (model sys)) →
  (0 < length (classes_ (model sys)) < 3)%nat →
  ∃ r, diagnose sys symptoms = Ok r ∧
       length (possible_diagnoses r) = length (classes_ (model sys)) ∧
       possible_diagnoses r ≡ₚ zip (classes_ (model sys)) probs ∧
       StronglySorted (λ a b, (b.2 <= a.2)%Q) (possible_diagnoses r).
Proof.
  intros Hnp Henc Hprobs Hlen [Hpos Hfew].
  destruct (diagnose_run _ _ _ _ Hnp Henc Hprobs Hlen Hpos)
    as (primary & rest & Hrank & ->).
  eexists. split; [done|]. cbn [possible_diagnoses]. rewrite <- Hrank.
  split; [|split].
  - rewrite ranking_length by done. lia.
  - apply ranking_all; [done|done|lia].
  - by apply ranking_descending.
Qed.

Lemma fewer_than_three_classes_witness :
  ∃ r, diagnose (np:=insertion_numpy) two_class_system ["fever"] = Ok r ∧
       length (possible_diagnoses r) = length (classes_ (model two_class_system)) ∧
       possible_diagnoses r ≡ₚ zip (classes_ (model two_class_system)) [0.25; 0.75]%Q ∧
       StronglySorted (λ a b, (b.2 <= a.2)%Q) (possible_diagnoses r).
Proof.
  apply (fewer_than_three_classes (np:=insertion_numpy) two_class_system ["fever"]
           [1; 0; 0; 0]%Q);
    [apply insertion_numpy_sorts | reflexivity | reflexivity | reflexivity
    | simpl; lia].
Defined.

Example two_classes_ranked :
  possible_diagnoses <$> diagnose (np:=insertion_numpy) two_class_system ["fever"]
  = Ok [("flu", 0.75); ("cold", 0.25)]%Q.
Proof. reflexivity. Qed.

(** ** Ties *)

(** The positions that line 74 selects, whatever [argsort] does with equal
    values. *)
Lemma top_indices_spec {np : Numpy} (probs : list Q) :
  argsort_sorts np →
  length (top_indices probs) = (3 `min` length probs)%nat ∧
  NoDup (top_indices probs) ∧
  StronglySorted (ranks_above any_order probs) (top_indices probs) ∧
  (∀ i k, i ∈ top_indices probs → k ∉ top_indices probs →
          (k < length probs)%nat → ranks_above any_order probs i k).
Proof.
  intros Hnp. destruct (Hnp probs) as [Hperm Hasc].
  assert (∀ i j, ascending_along probs j i → ranks_above any_order probs i j) as Hrank.
  { intros i j (p & q & Hp & Hq & Hle). exists q, p.
    split; [done|]. split; [done|].
    destruct (Qle_lt_or_eq _ _ Hle); [by left | by right]. }
  unfold top_indices, last_n. set (I := argsort probs) in *.
  rewrite <- (take_drop (length I - 3) I) in Hasc.
  split; [|split; [|split]].
  - rewrite length_reverse, length_drop. unfold I.
    rewrite (argsort_length Hnp). lia.
  - rewrite reverse_Permutation.
    eapply sublist_NoDup; [by apply argsort_NoDup|apply sublist_drop].
  - apply (StronglySorted_impl (flip (ascending_along probs))).
    + intros i j _ _. apply Hrank.
    + apply StronglySorted_reverse. by eapply StronglySorted_app_1_r.
  - intros i k Hi Hk Hlt. rewrite elem_of_reverse in Hi, Hk.
    apply Hrank. eapply StronglySorted_app_1_elem_of; [exact Hasc| |done].
    apply (argsort_elem Hnp probs) in Hlt. fold I in Hlt.
    rewrite <- (take_drop (length I - 3) I) in Hlt.
    by apply elem_of_app in Hlt as [?|?].
Qed.

Lemma possible_diagnoses_of_top3 {np : Numpy} classes probs :
  argsort_sorts np →
  length probs = length classes →
  top3_by any_order classes probs (ranking classes probs).
Proof.
  intros Hnp Hlen. exists (top_indices probs).
  split; [|by apply top_indices_spec].
  pose proof (possible_diagnoses_of_ranking Hnp classes probs Hlen) as Hok.
  apply mapM_Ok_Forall2 in Hok.
  eapply Forall2_impl; [exact Hok|]. intros i [d c]. unfold getitem. simpl.
  destruct (classes !! i); [|done]. simpl. destruct (probs !! i); [|done]. simpl.
  by intros [= -> ->].
Qed.

(** C2, as the specification has it, fails: numpy does not promise the
    order of equal values, and the program takes the order it gets.  "cold"
    stands before "flu" in the classifier's class order and has the same
    probability.  Under a sort that keeps equal values in index order "flu",
    the later class, is ranked first, against the rule of the
    specification; under a sort that returns them in descending index order
    "cold" is.  Both sorts do what numpy documents. *)
Lemma tie_order_not_fixed :
  argsort_sorts insertion_numpy ∧
  (∃ r, diagnose (np:=insertion_numpy) tie_system ["fever"] = Ok r ∧
        possible_diagnoses r = [("flu", 0.5); ("cold", 0.5)]%Q ∧
        ¬ top3_by earlier_first ["cold"; "flu"] [0.5; 0.5]%Q (possible_diagnoses r)) ∧
  argsort_sorts mirrored_numpy ∧
  (∃ r, diagnose (np:=mirrored_numpy) tie_system ["fever"] = Ok r ∧
        possible_diagnoses r = [("cold", 0.5); ("flu", 0.5)]%Q).
Proof.
  split; [apply insertion_numpy_sorts|]. split.
  - eexists. split; [reflexivity|]. split; [reflexivity|]. simpl.
    intros (idxs & HF & _ & _ & Hs & _).
    apply Forall2_cons_inv_r in HF as (i & idxs' & [Hi _] & HF & ->).
    apply Forall2_cons_inv_r in HF as (j & idxs'' & [Hj _] & HF & ->).
    apply Forall2_nil_inv_r in HF as ->.
    assert (i = 1%nat) as -> by (by destruct i as [|[|[|i]]]).
    assert (j = 0%nat) as -> by (by destruct j as [|[|[|j]]]).
    apply StronglySorted_inv in Hs as [_ Hs]. apply Forall_cons in Hs as [Hs _].
    destruct Hs as (p & q & [= <-] & [= <-] & [Hlt|[_ Hlt]]).
    + by apply Qlt_irrefl in Hlt.
    + unfold earlier_first in Hlt. lia.
  - split; [apply mirrored_numpy_sorts|]. eexists. split; reflexivity.
Qed.

(** C2, amended: [diagnose] returns the three most probable classes (all of
    them when there are fewer), each once, the most probable first, and no
    class left out is more probable than a class returned.  Classes of
    exactly the same probability stand in the order that [argsort] gives
    them, which the program does not fix.  The first entry is the primary
    diagnosis with its confidence. *)
Theorem top3_descending {np : Numpy} sys symptoms features probs :
  argsort_sorts np →
  encode (symptom_columns sys) symptoms = Ok features →
  predict_proba (model sys) features = Ok probs →
  length probs = length (classes_ (model sys)) →
  (0 < length (classes_ (model sys)))%nat →
  ∃ r, diagnose sys symptoms = Ok r ∧
       top3_by any_order (classes_ (model sys)) probs (possible_diagnoses r) ∧
       StronglySorted (λ a b, (b.2 <= a.2)%Q) (possible_diagnoses r) ∧
       possible_diagnoses r !! 0%nat = Some (diagnosis r, confidence r).
Proof.
  intros Hnp Henc Hprobs Hlen Hpos.
  destruct (diagnose_run _ _ _ _ Hnp Henc Hprobs Hlen Hpos)
    as (primary & rest & Hrank & ->).
  eexists. split; [done|]. cbn [possible_diagnoses diagnosis confidence].
  rewrite <- Hrank. split; [|split].
  - by apply possible_diagnoses_of_top3.
  - by apply ranking_descending.
  - rewrite Hrank. by destruct primary.
Qed.

Lemma top3_descending_witness :
  ∃ r, diagnose (np:=insertion_numpy) tie_system ["fever"] = Ok r ∧
       top3_by any_order (classes_ (model tie_system)) [0.5; 0.5]%Q
               (possible_diagnoses r) ∧
       StronglySorted (λ a b, (b.2 <= a.2)%Q) (possible_diagnoses r) ∧
       possible_diagnoses r !! 0%nat = Some (diagnosis r, confidence r).
Proof.
  apply (top3_descending (np:=insertion_numpy) tie_system ["fever"] [1; 0; 0; 0]%Q);
    [apply insertion_numpy_sorts | reflexivity | reflexivity | reflexivity
    | simpl; lia].
Defined.

(** ** The order in which the classifier lists its classes *)

Lemma above_cons cp a c :
  (length (above (c :: cp) a) ≤ S (length (above cp a)))%nat.
Proof.
  unfold above. rewrite filter_cons. destruct (decide _); simpl; lia.
Qed.

Lemma above_greatest cp a :
  Forall (λ c, (c.2 <= a.2)%Q) cp → above cp a = [].
Proof.
  unfold above. induction 1 as [|c cp Hc _ IH]; [done|].
  rewrite filter_cons, IH. apply Qle_bool_iff in Hc.
  rewrite decide_False; [done|]. by rewrite Hc.
Qed.

(** Two descending arrangements of the same entries begin with the same [k]
    entries, when ties are confined to entries with [k] or more entries
    strictly above them. *)
Lemma descending_prefix_unique (k : nat) (D D' : list (string * Q)) :
  StronglySorted (λ a b, (b.2 <= a.2)%Q) D →
  StronglySorted (λ a b, (b.2 <= a.2)%Q) D' →
  D ≡ₚ D' →
  (∀ a b, a ∈ D → b ∈ D → (a.2 == b.2)%Q → a = b ∨ (k ≤ length (above D a))%nat) →
  take k D = take k D'.
Proof.
  revert D D'. induction k as [|k IH]; intros D D' HD HD' Hperm Hties; [done|].
  destruct D as [|x D], D' as [|x' D'].
  - done.
  - by apply Permutation_nil_cons in Hperm.
  - symmetry in Hperm. by apply Permutation_nil_cons in Hperm.
  - apply StronglySorted_inv in HD as [HD Hx].
    apply StronglySorted_inv in HD' as [HD' Hx'].
    assert (x' ∈ x :: D) as Hin' by (rewrite Hperm; left).
    assert (x ∈ x' :: D') as Hin by (rewrite <- Hperm; left).
    assert (x.2 == x'.2)%Q as Heq.
    { apply Qle_antisym.
      - apply elem_of_cons in Hin as [->|Hin]; [apply Qle_refl|].
        rewrite Forall_forall in Hx'. by apply Hx'.
      - apply elem_of_cons in Hin' as [->|Hin']; [apply Qle_refl|].
        rewrite Forall_forall in Hx. by apply Hx. }
    assert (x = x') as <-.
    { destruct (Hties x x') as [?|Hk]; [by left|done|done|done|].
      rewrite above_greatest in Hk; [simpl in Hk; lia|].
      constructor; [apply Qle_refl|done]. }
    apply Permutation_cons_inv in Hperm. cbn [take]. f_equal.
    apply IH; [done|done|done|].
    intros a b Ha Hb Hab.
    destruct (Hties a b) as [?|Hk]; [by right|by right|done|by left|].
    right. pose proof (above_cons D a x). lia.
Qed.

(** C6, as the specification has it, fails: the same two classes with the
    same two probabilities, listed in the other order, are ranked the other
    way round, and this whatever [argsort] does with the two equal values. *)
Lemma tied_ranking_depends_on_order :
  NoDup tied_output.*1 ∧
  tied_output ≡ₚ tied_output_swapped ∧
  (∀ np : Numpy, argsort_sorts np →
     possible_diagnoses_of tied_output.*1 tied_output.*2
     ≠ possible_diagnoses_of tied_output_swapped.*1 tied_output_swapped.*2) ∧
  ¬ (∀ (np : Numpy) (cp cp' : list (string * Q)),
       argsort_sorts np → NoDup cp.*1 → cp ≡ₚ cp' →
       possible_diagnoses_of cp.*1 cp.*2 = possible_diagnoses_of cp'.*1 cp'.*2).
Proof.
  assert (NoDup tied_output.*1) as Hnd.
  { apply (bool_decide_unpack _). by vm_compute. }
  assert (tied_output ≡ₚ tied_output_swapped) as Hperm by apply Permutation_swap.
  assert (∀ np : Numpy, argsort_sorts np →
     possible_diagnoses_of tied_output.*1 tied_output.*2
     ≠ possible_diagnoses_of tied_output_swapped.*1 tied_output_swapped.*2) as Hne.
  { intros np Hnp.
    rewrite !(possible_diagnoses_of_ranking Hnp) by done.
    rewrite !(ranking_top_indices). cbn [fmap list_fmap tied_output
      tied_output_swapped fst snd].
    destruct (top_indices_spec [0.5; 0.5]%Q Hnp) as (Hlen & _).
    destruct (top_indices [0.5; 0.5]%Q) as [|i idxs] eqn:Hidx; [done|].
    assert (i < 2)%nat as Hi.
    { apply (top_indices_elem Hnp [0.5; 0.5]%Q). rewrite Hidx. by left. }
    intros [= H _]. destruct i as [|[|i]]; [done|done|lia]. }
  split; [done|]. split; [done|]. split; [done|].
  intros H. apply (Hne insertion_numpy insertion_numpy_sorts).
  by apply H; [apply insertion_numpy_sorts|..].
Qed.

(** C6, amended: when ties cannot reach the three best (two different
    classes have exactly the same probability only if at least three classes
    are strictly more probable), the ranking does not depend on the order in
    which the classifier lists its classes: any rearrangement of the (class,
    probability) pairs yields the same ranked list. *)
Theorem ranking_order_independent {np : Numpy} (cp cp' : list (string * Q)) :
  argsort_sorts np →
  ties_below_top3 cp →
  cp ≡ₚ cp' →
  ∃ out, possible_diagnoses_of cp.*1 cp.*2 = Ok out ∧
         possible_diagnoses_of cp'.*1 cp'.*2 = Ok out.
Proof.
  intros Hnp Hties Hperm. exists (ranking cp.*1 cp.*2).
  rewrite !(possible_diagnoses_of_ranking Hnp) by (by rewrite !length_fmap).
  split; [done|]. f_equal. unfold ranking, last_n.
  rewrite <- !take_reverse.
  assert (∀ l : list (string * Q), sorted_pairs l.*1 l.*2 ≡ₚ l) as Hsp.
  { intros l. rewrite (sorted_pairs_perm Hnp) by (by rewrite !length_fmap).
    by rewrite zip_fst_snd. }
  assert (∀ l : list (string * Q),
            StronglySorted (λ a b, (b.2 <= a.2)%Q) (reverse (sorted_pairs l.*1 l.*2)))
    as Hdesc.
  { intros l. apply (StronglySorted_reverse (λ a b, (a.2 <= b.2)%Q)).
    by apply sorted_pairs_ascending. }
  symmetry. apply descending_prefix_unique; [apply Hdesc|apply Hdesc| |].
  - by rewrite !reverse_Permutation, !Hsp.
  - intros a b. unfold above. rewrite !reverse_Permutation, !Hsp. apply Hties.
Qed.

Lemma ranking_order_independent_witness :
  ∃ out,
    possible_diagnoses_of (np:=insertion_numpy) tail_tied_output.*1 tail_tied_output.*2
    = Ok out ∧
    possible_diagnoses_of (np:=insertion_numpy)
      tail_tied_output_shuffled.*1 tail_tied_output_shuffled.*2
    = Ok out.
Proof.
  apply (ranking_order_independent (np:=insertion_numpy)
           tail_tied_output tail_tied_output_shuffled).
  - apply insertion_numpy_sorts.
  - intros a b Ha Hb Heq. unfold tail_tied_output in *.
    repeat (apply elem_of_cons in Ha as [-> | Ha]);
      [| | | | | by apply elem_of_nil in Ha];
      repeat (apply elem_of_cons in Hb as [-> | Hb]);
      first [ by apply elem_of_nil in Hb
            | left; reflexivity
            | exfalso; vm_compute in Heq; discriminate Heq
            | right; vm_compute; lia ].
  - unfold tail_tied_output, tail_tied_output_shuffled.
    apply Permutation_cons_app with (l1 := [("gout", 0); ("migraine", 0.1)]%Q).
    apply Permutation_cons_app
      with (l1 := [("gout", 0); ("migraine", 0.1); ("flu", 0.7)]%Q) (l2 := []).
    apply Permutation_cons_app with (l1 := [("gout", 0); ("migraine", 0.1)]%Q) (l2 := []).
    reflexivity.
Defined.

(** * Further properties *)

(** ** More on strings *)

Lemma isspace_LF : isspace LF = true.
Proof. reflexivity. Qed.

Lemma lstrip_head s :
  lstrip s = EmptyString ∨ ∃ c r, lstrip s = String c r ∧ isspace c = false.
Proof.
  induction s as [|c s IH]; simpl; [by left|].
  destruct (isspace c) eqn:E; [done|]. right. eauto.
Qed.

Lemma rstrip_idem s : rstrip (rstrip s) = rstrip s.
Proof.
  induction s as [|c s IH]; [done|]. cbn [rstrip].
  destruct (rstrip s) as [|d r] eqn:E.
  - destruct (isspace c) eqn:Hc; [done|]. cbn [rstrip]. by rewrite Hc.
  - rewrite rstrip_cons_nonempty; rewrite IH; done.
Qed.

Lemma strip_idem s : strip (strip s) = strip s.
Proof.
  unfold strip. destruct (lstrip_head s) as [->|(c & r & -> & Hc)]; [done|].
  rewrite (rstrip_cons_nonspace c r Hc). cbn [lstrip]. rewrite Hc.
  rewrite <- (rstrip_cons_nonspace c r Hc). apply rstrip_idem.
Qed.

Lemma rstrip_snoc_space s c :
  isspace c = true → rstrip (s +:+ String c EmptyString) = rstrip s.
Proof.
  intros Hc. induction s as [|x s IH].
  - rewrite append_Empty. cbn [rstrip]. by rewrite Hc.
  - rewrite append_String. cbn [rstrip]. by rewrite IH.
Qed.

Lemma strip_snoc_space s c :
  isspace c = true → strip (s +:+ String c EmptyString) = strip s.
Proof.
  intros Hc. unfold strip. induction s as [|x s IH].
  - rewrite append_Empty. cbn [lstrip]. by rewrite Hc.
  - rewrite append_String. cbn [lstrip]. destruct (isspace x); [done|].
    rewrite <- append_String. by apply rstrip_snoc_space.
Qed.

Lemma lower_append a b : lower (a +:+ b) = lower a +:+ lower b.
Proof.
  induction a as [|c a IH]; [done|].
  rewrite append_String. cbn [lower]. by rewrite IH, append_String.
Qed.

Lemma substring_of_lower s t : substring_of s t → substring_of (lower s) (lower t).
Proof.
  intros (a & b & ->). exists (lower a), (lower b). by rewrite !lower_append.
Qed.

Lemma substring_of_strip_mono t t' :
  substring_of t t' → substring_of (strip t) (strip t').
Proof.
  intros H. apply substring_of_strip; [apply strip_idem|].
  eapply substring_of_trans; [apply strip_substring | done].
Qed.

(** ** The matcher and longer texts *)

Lemma sublist_filter_impl {A} (P Q : A → Prop)
    `{∀ x, Decision (P x)} `{∀ x, Decision (Q x)} (l : list A) :
  (∀ x, P x → Q x) → filter P l `sublist_of` filter Q l.
Proof.
  intros HPQ. induction l as [|x l IH]; [done|].
  rewrite !filter_cons. destruct (decide (P x)) as [HP|HP].
  - rewrite decide_True by auto. by apply sublist_skip.
  - destruct (decide (Q x)); [by apply sublist_cons | done].
Qed.

Lemma analyze_medicine_matched sys text :
  ∃ r, app.analyze_medicine sys text = Ok r ∧
       matched r = filter (hit (lower (strip text))) (medicines_df sys).
Proof.
  eexists. split; [apply analyze_medicine_unfold|].
  rewrite <- collect_matches_filter. by destruct (app.collect_matches _ _).
Qed.

(** X1: on texts of code points below 256, which are the strings of this
    development and on which [str.lower] works character by character, a
    text that contains another text finds at least the medicines the other
    finds, in the same order: the rows matched for [text] are a sublist of
    the rows matched for [text'].  (Beyond that range the lowercase form of
    a letter can depend on its neighbours, and the property is not
    claimed.) *)
Theorem analyze_medicine_monotone (sys : DiagnosisSystem) (text text' : string) :
  substring_of text text' →
  ∃ r r', app.analyze_medicine sys text = Ok r ∧
          app.analyze_medicine sys text' = Ok r' ∧
          matched r `sublist_of` matched r'.
Proof.
  intros Hsub.
  destruct (analyze_medicine_matched sys text) as (r & Hr & Hm).
  destruct (analyze_medicine_matched sys text') as (r' & Hr' & Hm').
  exists r, r'. split; [done|]. split; [done|]. rewrite Hm, Hm'.
  apply sublist_filter_impl. intros row. unfold hit. rewrite !str_in_spec.
  intros Hrow. eapply substring_of_trans; [exact Hrow|].
  by apply substring_of_lower, substring_of_strip_mono.
Qed.

Lemma analyze_medicine_monotone_witness :
  ∃ r r', app.analyze_medicine flu_system "ParAcetamol" = Ok r ∧
          app.analyze_medicine flu_system "I took ParAcetamol today" = Ok r' ∧
          matched r `sublist_of` matched r'.
Proof.
  apply (analyze_medicine_monotone flu_system "ParAcetamol" "I took ParAcetamol today").
  by exists "I took ", " today".
Defined.

(** ** The upload handler *)

Section upload.
Context {image : Type} (cv : Vision image) (sys : DiagnosisSystem) (file : UploadFile).

(** X2: an upload that gets no further than the checks of lines 68-77 leaves
    the handler with status 500, whatever stopped it, because the handler's
    own [except Exception] catches what is raised there and prints it into
    the detail of a status-500 exception.  A content type that does not
    start with "image/" gives the detail "400: Please upload an image file";
    bytes for which [cv2.imdecode] returns [None] give "400: Could not read
    image file"; when [cv2.imdecode] raises (as it does on an empty buffer)
    the detail is the text of its exception; and an upload without a content
    type gives the text of the [AttributeError] of line 68. *)
Theorem refused_upload_reported_as_500 :
  (content_type file = None →
   handlers.analyze_medicine cv sys file
   = Raise (HTTPException 500 "'NoneType' object has no attribute 'startswith'")) ∧
  (∀ ct, content_type file = Some ct → startswith "image/" ct = false →
         handlers.analyze_medicine cv sys file
         = Raise (HTTPException 500 "400: Please upload an image file")) ∧
  (∀ ct, content_type file = Some ct → startswith "image/" ct = true →
         imdecode cv (contents file) = Ok None →
         handlers.analyze_medicine cv sys file
         = Raise (HTTPException 500 "400: Could not read image file")) ∧
  (∀ ct e, content_type file = Some ct → startswith "image/" ct = true →
           imdecode cv (contents file) = Raise e →
           handlers.analyze_medicine cv sys file
           = Raise (HTTPException 500 (exn_str e))).
Proof.
  unfold handlers.analyze_medicine. repeat split.
  - by intros ->.
  - intros ct -> Htype. cbn -[startswith]. by rewrite Htype.
  - intros ct -> Htype Himg. cbn -[startswith]. by rewrite Htype, Himg.
  - intros ct e -> Htype Himg. cbn -[startswith]. by rewrite Htype, Himg.
Qed.

(** X3: once the upload has decoded to an image, the handler answers as the
    matcher does on the text that OCR returns, and cannot fail; when OCR
    raises [e], the inner handler makes a status-500 exception of it and the
    outer one wraps that again, so the detail reads "500: Error processing
    image: " followed by the text of [e].  No error of the handler carries
    a status other than 500. *)
Theorem decoded_upload_response (ct : string) (img : image) :
  content_type file = Some ct →
  startswith "image/" ct = true →
  imdecode cv (contents file) = Ok (Some img) →
  (∀ text, image_to_string cv img = Ok text →
           handlers.analyze_medicine cv sys file = app.analyze_medicine sys text) ∧
  (∀ e, image_to_string cv img = Raise e →
        handlers.analyze_medicine cv sys file
        = Raise (HTTPException 500 ("500: Error processing image: " +:+ exn_str e))) ∧
  (∀ e, handlers.analyze_medicine cv sys file = Raise e →
        ∃ detail, e = HTTPException 500 detail).
Proof.
  intros Hct Htype Himg. unfold handlers.analyze_medicine.
  rewrite Hct. cbn -[startswith]. rewrite Htype, Himg. simpl.
  split; [|split].
  - intros text ->. simpl. rewrite analyze_medicine_unfold.
    by destruct (app.collect_matches _ _).
  - by intros e ->.
  - intros e. destruct (image_to_string cv img) as [text|e']; simpl.
    + by destruct (decide (_ = [])).
    + intros [= <-]. eauto.
Qed.
End upload.

Lemma refused_upload_reported_as_500_witness :
  handlers.analyze_medicine blind_vision flu_system
    (mkUpload "notes.txt" (Some "text/plain") "abc")
  = Raise (HTTPException 500 "400: Please upload an image file") ∧
  handlers.analyze_medicine blind_vision flu_system
    (mkUpload "anim.gif" (Some "image/gif") "GIF89a")
  = Raise (HTTPException 500 "400: Could not read image file") ∧
  handlers.analyze_medicine blind_vision flu_system
    (mkUpload "empty.png" (Some "image/png") "")
  = Raise (HTTPException 500 "(-215:Assertion failed) !buf.empty()") ∧
  handlers.analyze_medicine blind_vision flu_system (mkUpload "blob" None "abc")
  = Raise (HTTPException 500 "'NoneType' object has no attribute 'startswith'").
Proof.
  split; [|split; [|split]].
  - apply (refused_upload_reported_as_500 blind_vision flu_system
             (mkUpload "notes.txt" (Some "text/plain") "abc")) with "text/plain";
      reflexivity.
  - apply (refused_upload_reported_as_500 blind_vision flu_system
             (mkUpload "anim.gif" (Some "image/gif") "GIF89a")) with "image/gif";
      reflexivity.
  - apply (refused_upload_reported_as_500 blind_vision flu_system
             (mkUpload "empty.png" (Some "image/png") "")
             ) with (ct := "image/png")
                    (e := cv2_error "(-215:Assertion failed) !buf.empty()");
      reflexivity.
  - apply (refused_upload_reported_as_500 blind_vision flu_system
             (mkUpload "blob" None "abc")).
    reflexivity.
Defined.

Lemma decoded_upload_response_witness :
  (∀ text, image_to_string blind_vision () = Ok text →
           handlers.analyze_medicine blind_vision flu_system
             (mkUpload "label.png" (Some "image/png") "abc")
           = app.analyze_medicine flu_system text) ∧
  (∀ e, image_to_string blind_vision () = Raise e →
        handlers.analyze_medicine blind_vision flu_system
          (mkUpload "label.png" (Some "image/png") "abc")
        = Raise (HTTPException 500 ("500: Error processing image: " +:+ exn_str e))) ∧
  (∀ e, handlers.analyze_medicine blind_vision flu_system
          (mkUpload "label.png" (Some "image/png") "abc") = Raise e →
        ∃ detail, e = HTTPException 500 detail).
Proof.
  apply (decoded_upload_response blind_vision flu_system
           (mkUpload "label.png" (Some "image/png") "abc") "image/png" ());
    reflexivity.
Defined.

(** ** The vocabulary file, from training to start-up *)

Lemma one_line_cons c s :
  one_line (String c s) = true → c ≠ LF ∧ c ≠ CR ∧ one_line s = true.
Proof.
  cbn [one_line]. rewrite !andb_true_iff, !negb_true_iff, !bool_decide_eq_false.
  tauto.
Qed.

Lemma read_write_line p col rest :
  one_line col = true →
  read_text (write_text p (col +:+ String LF rest))
  = col +:+ String LF (read_text (write_text p rest)).
Proof.
  intros Hcol. induction col as [|c col IH].
  - rewrite !append_Empty. cbn [write_text]. rewrite decide_True by done.
    by destruct p.
  - apply one_line_cons in Hcol as (Hlf & Hcr & Hcol).
    rewrite !append_String. cbn [write_text]. rewrite decide_False by done.
    cbn [read_text]. rewrite decide_False by done. by rewrite IH.
Qed.

Lemma readlines_line col rest :
  one_line col = true →
  readlines (col +:+ String LF rest) = (col +:+ String LF EmptyString) :: readlines rest.
Proof.
  intros Hcol. induction col as [|c col IH].
  - rewrite !append_Empty. cbn [readlines]. by rewrite decide_True.
  - apply one_line_cons in Hcol as (Hlf & _ & Hcol).
    rewrite !append_String. cbn [readlines]. rewrite decide_False by done.
    by rewrite IH.
Qed.

Lemma symptom_columns_txt_cons col columns :
  symptom_columns_txt (col :: columns)
  = col +:+ String LF (symptom_columns_txt columns).
Proof. reflexivity. Qed.

(** The file that training writes reads back as one line per column. *)
Lemma trained_columns_file_lines p columns :
  Forall (λ col, one_line col = true) columns →
  trained_columns_file p columns
  = Contents ((λ col, col +:+ String LF EmptyString) <$> columns).
Proof.
  intros Hcols. unfold trained_columns_file. f_equal.
  assert (read_text (write_text p (symptom_columns_txt columns))
          = symptom_columns_txt columns) as ->.
  { induction Hcols as [|col columns Hcol _ IH]; [done|].
    rewrite symptom_columns_txt_cons, read_write_line by done.
    by rewrite IH. }
  induction Hcols as [|col columns Hcol _ IH]; [done|].
  rewrite symptom_columns_txt_cons, readlines_line by done.
  by rewrite fmap_cons, <- IH.
Qed.

Lemma feature_columns_spec header columns :
  feature_columns header = Some columns →
  ("diagnosis" ∉ columns) ∧ (columns `sublist_of` header) ∧
  ∀ col, col ∈ header → col ≠ "diagnosis" → col ∈ columns.
Proof.
  unfold feature_columns. destruct (decide _); [|done]. intros [= <-].
  split; [|split].
  - rewrite list_elem_of_filter. tauto.
  - apply sublist_filter.
  - intros col Hcol Hne. by apply list_elem_of_filter.
Qed.

(** X4: the vocabulary travels from training to the running service.  When
    training drops the label column from a header whose other names hold no
    line break and writes the rest to the vocabulary file, on either
    platform, start-up reads the same number of names back in the same
    order, each with the white space around it removed (so unchanged, when
    it has none); [GET /symptoms] returns that list, "diagnosis" is not in
    the written columns, and every feature vector has one entry per
    training column. *)
Theorem vocabulary_from_training (p : platform) (header columns : list string)
    (m : Classifier) (d : list DiseaseRow) (md : list MedicineRow) :
  feature_columns header = Some columns →
  Forall (λ col, one_line col = true) columns →
  d ≠ [] → md ≠ [] →
  ∃ sys,
    init (mkFiles (Contents m) (trained_columns_file p columns) (Contents d) (Contents md))
    = Ok sys ∧
    symptom_columns sys = strip <$> columns ∧
    (Forall (λ col, strip col = col) columns → symptom_columns sys = columns) ∧
    handlers.get_symptoms sys = Ok (strip <$> columns) ∧
    ("diagnosis" ∉ columns) ∧ (columns `sublist_of` header) ∧
    ∀ symptoms, ∃ v, encode (symptom_columns sys) symptoms = Ok v ∧
                     length v = length columns.
Proof.
  intros Hfeat Hcols Hd Hmd.
  rewrite trained_columns_file_lines by done. rewrite init_Contents.
  destruct d as [|row d]; [done|]. destruct md as [|mrow md]; [done|]. simpl.
  assert (strip <$> ((λ col, col +:+ String LF EmptyString) <$> columns)
          = strip <$> columns) as Hstrip.
  { rewrite <- list_fmap_compose. apply list_fmap_ext. intros _ col _. simpl.
    by apply strip_snoc_space. }
  eexists. split; [done|]. cbn [symptom_columns]. rewrite Hstrip.
  split; [done|]. split; [|split; [done|]].
  - intros Htrim. rewrite <- (list_fmap_id columns) at 2.
    apply list_fmap_ext. intros i col Hcol. simpl.
    rewrite Forall_forall in Htrim. apply Htrim.
    by apply list_elem_of_lookup_2 in Hcol.
  - destruct (feature_columns_spec _ _ Hfeat) as (Hno & Hsub & _).
    split; [done|]. split; [done|].
    intros symptoms. eexists. split; [apply encode_indicator|].
    by rewrite indicator_length, length_fmap.
Qed.

Lemma vocabulary_from_training_witness :
  ∃ sys,
    init (mkFiles (Contents flu_model)
            (trained_columns_file win32 ["fever"; "cough"; "headache"; "sore_throat"])
            (Contents [flu_row]) (Contents [paracetamol]))
    = Ok sys ∧
    symptom_columns sys = strip <$> ["fever"; "cough"; "headache"; "sore_throat"] ∧
    (Forall (λ col, strip col = col) ["fever"; "cough"; "headache"; "sore_throat"] →
     symptom_columns sys = ["fever"; "cough"; "headache"; "sore_throat"]) ∧
    handlers.get_symptoms sys
    = Ok (strip <$> ["fever"; "cough"; "headache"; "sore_throat"]) ∧
    ("diagnosis" ∉ ["fever"; "cough"; "headache"; "sore_throat"]) ∧
    (["fever"; "cough"; "headache"; "sore_throat"]
       `sublist_of` ["fever"; "cough"; "diagnosis"; "headache"; "sore_throat"]) ∧
    ∀ symptoms, ∃ v, encode (symptom_columns sys) symptoms = Ok v ∧
                     length v = length ["fever"; "cough"; "headache"; "sore_throat"].
Proof.
  apply (vocabulary_from_training win32
           ["fever"; "cough"; "diagnosis"; "headache"; "sore_throat"]
           ["fever"; "cough"; "headache"; "sore_throat"]
           flu_model [flu_row] [paracetamol]).
  - reflexivity.
  - repeat constructor.
  - discriminate.
  - discriminate.
Defined.

(** X5: whatever the vocabulary file holds, every symptom name of a started
    system is free of white space at its ends (a blank line becomes the empty
    name), and there is one name per line of the file. *)
Theorem init_vocabulary_trimmed (fs : Files) (sys : DiagnosisSystem) :
  init fs = Ok sys →
  Forall (λ name, strip name = name) (symptom_columns sys) ∧
  ∃ lines, columns_path fs = Contents lines ∧
           length (symptom_columns sys) = length lines.
Proof.
  destruct fs as [[| | |m] [| | |lines] [| | |d] [| | |md]]; try done.
  rewrite init_Contents. destruct (df_empty d || df_empty md); [done|].
  intros [= <-]. cbn [symptom_columns columns_path]. split.
  - apply Forall_fmap, Forall_forall. intros line _. apply strip_idem.
  - exists lines. by rewrite length_fmap.
Qed.

Lemma init_vocabulary_trimmed_witness :
  Forall (λ name, strip name = name)
         (symptom_columns (mkSystem flu_model ["fever"; ""; "sore throat"]
                                    [flu_row] [paracetamol])) ∧
  ∃ lines,
    columns_path (mkFiles (Contents flu_model)
                          (Contents [" fever" +:+ String LF ""; String LF "";
                                     "sore throat "])
                          (Contents [flu_row]) (Contents [paracetamol]))
    = Contents lines ∧
    length (symptom_columns (mkSystem flu_model ["fever"; ""; "sore throat"]
                                      [flu_row] [paracetamol]))
    = length lines.
Proof.
  apply (init_vocabulary_trimmed
           (mkFiles (Contents flu_model)
                    (Contents [" fever" +:+ String LF ""; String LF ""; "sore throat "])
                    (Contents [flu_row]) (Contents [paracetamol]))).
  reflexivity.
Defined.

(** ** More on [diagnose] *)

(** X6: the diagnosis depends on the reported symptoms only through the
    vocabulary words among them: two lists that hold the same vocabulary
    words, in any order, any number of times, with any other words mixed in,
    get the same answer, be it a result or an exception. *)
Theorem diagnose_ignores_order_and_unknown {np : Numpy} (sys : DiagnosisSystem)
    (symptoms symptoms' : list string) :
  (∀ x, x ∈ symptom_columns sys → (x ∈ symptoms ↔ x ∈ symptoms')) →
  diagnose sys symptoms = diagnose sys symptoms'.
Proof.
  intros H. unfold diagnose.
  by rewrite !encode_indicator, (indicator_ext _ symptoms symptoms').
Qed.

Lemma diagnose_ignores_order_and_unknown_witness :
  diagnose (np:=insertion_numpy) flu_system ["fever"; "cough"]
  = diagnose (np:=insertion_numpy) flu_system ["cough"; "itching"; "fever"; "cough"].
Proof.
  apply (diagnose_ignores_order_and_unknown (np:=insertion_numpy) flu_system).
  intros x Hx. simpl in Hx.
  repeat (apply elem_of_cons in Hx as [-> | Hx]);
    [ | | | | by apply elem_of_nil in Hx ];
    by apply (bool_decide_unpack _).
Defined.

Lemma ranking_head_max {np : Numpy} classes probs primary rest :
  argsort_sorts np →
  length probs = length classes →
  ranking classes probs = primary :: rest →
  primary ∈ zip classes probs ∧
  ∀ x, x ∈ zip classes probs → (x.2 <= primary.2)%Q.
Proof.
  unfold ranking, last_n. intros Hnp Hlen Hrank.
  set (S := sorted_pairs classes probs) in *.
  apply (f_equal reverse) in Hrank. rewrite reverse_involutive, reverse_cons in Hrank.
  pose proof (sorted_pairs_ascending Hnp classes probs) as Hsorted.
  fold S in Hsorted.
  rewrite <- (take_drop (length S - 3) S), Hrank, app_assoc in Hsorted.
  assert (∀ x, x ∈ S ↔ x ∈ zip classes probs) as Hmem
    by (intros x; unfold S; by rewrite (sorted_pairs_perm Hnp)).
  assert (∀ x, x ∈ S ↔ x ∈ (take (length S - 3) S ++ reverse rest)%list ∨ x = primary) as Hsplit.
  { intros x. rewrite <- (take_drop (length S - 3) S) at 1.
    rewrite Hrank, app_assoc, elem_of_app, list_elem_of_singleton. done. }
  split.
  - apply Hmem, Hsplit. by right.
  - intros x Hx. apply Hmem, Hsplit in Hx as [Hx| ->]; [|apply Qle_refl].
    eapply (StronglySorted_app_1_elem_of _ _ _ x primary) in Hsorted;
      [done | done | by left].
Qed.

(** X7: the primary diagnosis is a class of greatest probability: its
    confidence is the probability the classifier gave to it, and no class
    has a greater one. *)
Theorem primary_has_greatest_probability {np : Numpy} sys symptoms features probs :
  argsort_sorts np →
  encode (symptom_columns sys) symptoms = Ok features →
  predict_proba (model sys) features = Ok probs →
  length probs = length (classes_ (model sys)) →
  (0 < length (classes_ (model sys)))%nat →
  ∃ r, diagnose sys symptoms = Ok r ∧
       (∃ i, classes_ (model sys) !! i = Some (diagnosis r) ∧
             probs !! i = Some (confidence r)) ∧
       (∀ i p, probs !! i = Some p → (p <= confidence r)%Q).
Proof.
  intros Hnp Henc Hprobs Hlen Hpos.
  destruct (diagnose_run _ _ _ _ Hnp Henc Hprobs Hlen Hpos)
    as (primary & rest & Hrank & ->).
  destruct (ranking_head_max _ _ _ _ Hnp Hlen Hrank) as [Hin Hmax].
  eexists. split; [done|]. cbn [diagnosis confidence]. split.
  - apply list_elem_of_lookup in Hin as [i Hi].
    apply lookup_zip_with_Some in Hi as (c & p & -> & Hc & Hp). by exists i.
  - intros i p Hp.
    destruct (lookup_lt_is_Some_2 (classes_ (model sys)) i) as [c Hc].
    { rewrite <- Hlen. by eapply lookup_lt_Some. }
    apply (Hmax (c, p)). apply list_elem_of_lookup. exists i.
    apply lookup_zip_with_Some. by exists c, p.
Qed.

Lemma primary_has_greatest_probability_witness :
  ∃ r, diagnose (np:=insertion_numpy) flu_system ["fever"] = Ok r ∧
       (∃ i, classes_ (model flu_system) !! i = Some (diagnosis r) ∧
             [0.2; 0.7; 0.1]%Q !! i = Some (confidence r)) ∧
       (∀ i p, [0.2; 0.7; 0.1]%Q !! i = Some p → (p <= confidence r)%Q).
Proof.
  apply (primary_has_greatest_probability (np:=insertion_numpy)
           flu_system ["fever"] [1; 0; 0; 0]%Q);
    [apply insertion_numpy_sorts | reflexivity | reflexivity | reflexivity
    | simpl; lia].
Defined.

Lemma filter_head {A} (P : A → Prop) `{∀ x, Decision (P x)} (l : list A) x t :
  filter P l = x :: t →
  P x ∧ ∃ before after, l = (before ++ x :: after)%list ∧ Forall (λ y, ¬ P y) before.
Proof.
  induction l as [|y l IH]; [done|]. rewrite filter_cons.
  destruct (decide (P y)) as [Hy|Hy].
  - intros [= -> <-]. split; [done|]. by exists [], l.
  - intros Hl. destruct (IH Hl) as (Hx & before & after & -> & Hb).
    split; [done|]. exists (y :: before), after. split; [done|]. by constructor.
Qed.

(** X8: the disease information always bears the primary diagnosis as its
    name.  When the disease table has rows of that name, it is the first of
    them in table order: the rows before it have other names. *)
Theorem disease_info_first_match {np : Numpy} sys symptoms features probs :
  argsort_sorts np →
  encode (symptom_columns sys) symptoms = Ok features →
  predict_proba (model sys) features = Ok probs →
  length probs = length (classes_ (model sys)) →
  (0 < length (classes_ (model sys)))%nat →
  ∃ r, diagnose sys symptoms = Ok r ∧
       dis_name (disease_info r) = diagnosis r ∧
       ((∃ row, row ∈ diseases_df sys ∧ dis_name row = diagnosis r) →
        ∃ before after,
          diseases_df sys = (before ++ disease_info r :: after)%list ∧
          Forall (λ row, dis_name row ≠ diagnosis r) before).
Proof.
  intros Hnp Henc Hprobs Hlen Hpos.
  destruct (diagnose_run _ _ _ _ Hnp Henc Hprobs Hlen Hpos)
    as (primary & rest & _ & ->).
  eexists. split; [done|]. cbn [diagnosis disease_info].
  unfold disease_or_placeholder.
  destruct (filter _ (diseases_df sys)) as [|row rows] eqn:E.
  - split; [done|]. intros (row & Hrow & Hname).
    assert (row ∈ filter (λ r, dis_name r = primary.1) (diseases_df sys)) as Hin
      by (by apply list_elem_of_filter).
    rewrite E in Hin. by apply elem_of_nil in Hin.
  - apply filter_head in E as (Hname & before & after & Hdf & Hb).
    split; [done|]. intros _. by exists before, after.
Qed.

Lemma disease_info_first_match_witness :
  ∃ r, diagnose (np:=insertion_numpy) two_flu_rows_system ["fever"] = Ok r ∧
       dis_name (disease_info r) = diagnosis r ∧
       ((∃ row, row ∈ diseases_df two_flu_rows_system ∧ dis_name row = diagnosis r) →
        ∃ before after,
          diseases_df two_flu_rows_system = (before ++ disease_info r :: after)%list ∧
          Forall (λ row, dis_name row ≠ diagnosis r) before).
Proof.
  apply (disease_info_first_match (np:=insertion_numpy) two_flu_rows_system ["fever"]
           [1; 0; 0; 0]%Q [0.2; 0.7; 0.1]%Q);
    [apply insertion_numpy_sorts | reflexivity | reflexivity | reflexivity
    | simpl; lia].
Defined.

(** X9: when the classifier raises, [diagnose] raises the same exception and
    returns no partial result; for a request with symptoms the handler
    passes it on as a status-500 exception that carries the exception's
    text. *)
Theorem classifier_failure_propagates {np : Numpy} sys symptoms features e :
  encode (symptom_columns sys) symptoms = Ok features →
  predict_proba (model sys) features = Raise e →
  diagnose sys symptoms = Raise e ∧
  (symptoms ≠ [] → app.diagnose sys symptoms = Raise (HTTPException 500 (exn_str e))).
Proof.
  intros Henc Hfail.
  assert (diagnose sys symptoms = Raise e) as Hd.
  { unfold diagnose. rewrite Henc. simpl. by rewrite Hfail. }
  split; [done|]. intros Hne. unfold app.diagnose.
  rewrite decide_False by done. by rewrite Hd.
Qed.

Lemma classifier_failure_propagates_witness :
  diagnose (np:=insertion_numpy) failing_system ["fever"]
  = Raise (ClassifierError "X has 4 features, but 5 were expected") ∧
  (["fever"] ≠ [] →
   app.diagnose (np:=insertion_numpy) failing_system ["fever"]
   = Raise (HTTPException 500
              (exn_str (ClassifierError "X has 4 features, but 5 were expected")))).
Proof.
  apply (classifier_failure_propagates (np:=insertion_numpy)
           failing_system ["fever"] [1; 0; 0; 0]%Q);
    reflexivity.
Defined.

(** ** A vocabulary with a repeated name *)

(** X10: a column whose name already stands earlier in the vocabulary is
    never set, whatever symptoms are reported: its entry is 0. *)
Theorem repeated_column_never_set (cols symptoms : list string) (i : nat) (c : string) :
  cols !! i = Some c →
  c ∈ take i cols →
  ∃ v, encode cols symptoms = Ok v ∧ v !! i = Some 0%Q.
Proof.
  intros Hc Hdup. exists (indicator cols symptoms). split; [apply encode_indicator|].
  destruct (lookup_lt_is_Some_2 (indicator cols symptoms) i) as [x Hx].
  { rewrite indicator_length. by eapply lookup_lt_Some. }
  pose proof (indicator_binary cols symptoms) as Hbin.
  rewrite Forall_forall in Hbin.
  destruct (Hbin x (list_elem_of_lookup_2 _ _ _ Hx)) as [-> | ->]; [done|].
  apply indicator_lookup in Hx as (c' & Hc' & _ & Hnot). congruence.
Qed.

Lemma repeated_column_never_set_witness :
  ∃ v, encode ["fever"; "cough"; "fever"] ["fever"] = Ok v ∧ v !! 2%nat = Some 0%Q.
Proof.
  apply (repeated_column_never_set ["fever"; "cough"; "fever"] ["fever"] 2 "fever").
  - reflexivity.
  - simpl. by left.
Defined.

(** ** The printed report *)

Lemma length_medicine_lines (meds : list MedicineRow) :
  length (med ← meds;
          [ nl ("Medicine: " +:+ med_name med);
            "Usage: " +:+ med_usage med;
            "Dosage: " +:+ med_dosage med;
            "Side Effects: " +:+ med_side_effects med ])
  = (4 * length meds)%nat.
Proof.
  induction meds as [|med meds IH]; [done|].
  rewrite bind_cons, length_app, IH. simpl. lia.
Qed.

(** X11: [print_diagnosis_result] calls [print] eight times for the
    diagnosis and the disease; then, only when the classifier has more than
    one class, once for a heading and once for each further candidate (at
    most two); then, only when some medicine row names the primary
    diagnosis, once for a heading and four times for each such row.  This
    counts the calls, not the lines on the terminal: the strings of the
    headings and of each "Medicine:" call begin with a line feed, and a
    field may hold line feeds of its own. *)
Theorem report_length {np : Numpy} (pct : Q → string) sys symptoms features probs :
  argsort_sorts np →
  encode (symptom_columns sys) symptoms = Ok features →
  predict_proba (model sys) features = Ok probs →
  length probs = length (classes_ (model sys)) →
  (0 < length (classes_ (model sys)))%nat →
  ∃ r, diagnose sys symptoms = Ok r ∧
       length (print_diagnosis_result pct r)
       = (8
          + (if decide (1 < length (classes_ (model sys)))
             then 3 `min` length (classes_ (model sys)) else 0)
          + (if decide (medicines r = []) then 0 else 1 + 4 * length (medicines r)))%nat.
Proof.
  intros Hnp Henc Hprobs Hlen Hpos.
  destruct (diagnose_run _ _ _ _ Hnp Henc Hprobs Hlen Hpos)
    as (primary & rest & Hrank & ->).
  eexists. split; [done|]. unfold print_diagnosis_result.
  cbn [possible_diagnoses medicines].
  pose proof (ranking_length Hnp _ _ Hlen) as HL. rewrite Hrank in HL.
  cbn [length] in HL. rewrite !length_app.
  set (others := if decide (1 < length (primary :: rest))%nat then _ else _).
  set (meds := if decide (_ = []) then [] else _).
  assert (length others
          = if decide (1 < length (classes_ (model sys)))%nat
            then (3 `min` length (classes_ (model sys)))%nat else 0%nat) as ->.
  { unfold others. clear others meds.
    repeat case_decide; cbn [length] in *;
      rewrite ?length_fmap, ?length_drop; cbn [length]; lia. }
  assert (length meds
          = if decide (filter (λ r, med_diagnosis r = primary.1) (medicines_df sys) = [])
            then 0%nat
            else (1 + 4 * length (filter (λ r, med_diagnosis r = primary.1)
                                         (medicines_df sys)))%nat) as ->.
  { unfold meds. destruct (decide (_ = [])); [done|]. cbn [length].
    by rewrite length_medicine_lines. }
  cbn [length]. lia.
Qed.

Lemma report_length_witness :
  ∃ r, diagnose (np:=insertion_numpy) flu_system ["fever"] = Ok r ∧
       length (print_diagnosis_result (λ _, "n/a") r)
       = (8
          + (if decide (1 < length (classes_ (model flu_system)))
             then 3 `min` length (classes_ (model flu_system)) else 0)
          + (if decide (medicines r = []) then 0 else 1 + 4 * length (medicines r)))%nat.
Proof.
  apply (report_length (np:=insertion_numpy) (λ _, "n/a") flu_system ["fever"]
           [1; 0; 0; 0]%Q [0.2; 0.7; 0.1]%Q);
    [apply insertion_numpy_sorts | reflexivity | reflexivity | reflexivity
    | simpl; lia].
Defined.

(** ** The candidates *)

Lemma ranking_submseteq {np : Numpy} classes probs :
  argsort_sorts np →
  length probs = length classes →
  ranking classes probs ⊆+ zip classes probs.
Proof.
  intros Hnp Hlen. unfold ranking, last_n. rewrite reverse_Permutation.
  transitivity (sorted_pairs classes probs).
  - apply sublist_submseteq, sublist_drop.
  - by rewrite (sorted_pairs_perm Hnp).
Qed.

(** X12: every candidate that [diagnose] lists is one of the classifier's
    classes with the probability the classifier gave to it, no class is
    taken more often than the classifier has it, and when the classifier's
    class names are pairwise different, so are the candidates' names. *)
Theorem candidates_from_classifier {np : Numpy} sys symptoms features probs :
  argsort_sorts np →
  encode (symptom_columns sys) symptoms = Ok features →
  predict_proba (model sys) features = Ok probs →
  length probs = length (classes_ (model sys)) →
  (0 < length (classes_ (model sys)))%nat →
  ∃ r, diagnose sys symptoms = Ok r ∧
       possible_diagnoses r ⊆+ zip (classes_ (model sys)) probs ∧
       (NoDup (classes_ (model sys)) → NoDup (possible_diagnoses r).*1).
Proof.
  intros Hnp Henc Hprobs Hlen Hpos.
  destruct (diagnose_run _ _ _ _ Hnp Henc Hprobs Hlen Hpos)
    as (primary & rest & Hrank & ->).
  eexists. split; [done|]. cbn [possible_diagnoses]. rewrite <- Hrank.
  pose proof (ranking_submseteq (classes_ (model sys)) probs Hnp Hlen) as Hsub.
  split; [done|]. intros Hnd.
  apply (fmap_submseteq fst) in Hsub. rewrite fst_zip in Hsub by lia.
  apply submseteq_sublist_r in Hsub as (l2 & Hperm & Hsl).
  rewrite Hperm. by eapply sublist_NoDup.
Qed.

Lemma candidates_from_classifier_witness :
  ∃ r, diagnose (np:=insertion_numpy) flu_system ["fever"] = Ok r ∧
       possible_diagnoses r ⊆+ zip (classes_ (model flu_system)) [0.2; 0.7; 0.1]%Q ∧
       (NoDup (classes_ (model flu_system)) → NoDup (possible_diagnoses r).*1).
Proof.
  apply (candidates_from_classifier (np:=insertion_numpy)
           flu_system ["fever"] [1; 0; 0; 0]%Q);
    [apply insertion_numpy_sorts | reflexivity | reflexivity | reflexivity
    | simpl; lia].
Defined.

(** ** Reporting more symptoms *)

(** X13: reporting two lists of symptoms together sets exactly the entries
    that either list sets on its own: the vector of [symptoms ++ symptoms']
    has a 1 where the vector of [symptoms] or the vector of [symptoms'] has
    one, and nowhere else. *)
Theorem encode_union (cols symptoms symptoms' : list string) :
  ∃ v v' w,
    encode cols symptoms = Ok v ∧
    encode cols symptoms' = Ok v' ∧
    encode cols (symptoms ++ symptoms') = Ok w ∧
    ∀ i, w !! i = Some 1%Q ↔ v !! i = Some 1%Q ∨ v' !! i = Some 1%Q.
Proof.
  exists (indicator cols symptoms), (indicator cols symptoms'),
         (indicator cols (symptoms ++ symptoms')).
  rewrite !encode_indicator. repeat split; try done.
  - rewrite !indicator_lookup. intros (c & Hc & Hin & Hnot).
    apply elem_of_app in Hin as [Hin|Hin]; [left | right]; eauto.
  - rewrite !indicator_lookup. intros [(c & Hc & Hin & Hnot)|(c & Hc & Hin & Hnot)];
      exists c; rewrite elem_of_app; auto.
Qed.
